(** * AVA's Babel pipeline ([lib/babel-pipeline.js])

    A shallow embedding of the configuration validator ([validate]), of the
    pipeline factory ([build]) and of the per-file transform cache it returns,
    together with the properties of the cache that the project documents.

    JavaScript values are an inductive type, objects are finite maps from
    property names to values, [process.env] is a finite map from names to
    strings, buffers are lists of bytes, and the file system is a finite map
    from paths to file contents.  Code that throws returns [Throw]; code that
    touches the file system runs in a small state monad whose state survives an
    exception, as the disk does. *)

From Stdlib Require Import ZArith Lia List DecimalString.
From Stdlib.Strings Require Import String Ascii Byte.
From stdpp Require Import base option list gmap strings fin_maps.
Import ListNotations.

#[local] Set Warnings "-register-all".
#[local] Open Scope string_scope.
#[local] Open Scope Z_scope.
#[local] Open Scope list_scope.

(** ** JavaScript values *)

Module JS.

(** The values that reach [validate] and [build].  Numbers are the
    integer-valued ones and [NaN]: the only numbers that are falsy are zero
    and [NaN].  Functions are opaque and compared by identity.  Objects are
    plain objects, as [JSON.parse] makes them: their own enumerable
    properties, and [Object.prototype] for a prototype.  Strings are
    well-formed and kept in their UTF-8 encoding. *)
Inductive value : Type :=
| VUndefined
| VNull
| VBool (b : bool)
| VNum (n : Z)
| VNaN
| VStr (s : string)
| VFun (identity : positive)
| VArr (elements : list value)
| VObj (props : gmap string value).

(** What is thrown: an [Error] or a [TypeError], with its message. *)
Inductive error : Type :=
| Error (message : string)
| TypeError (message : string).

Inductive result (A : Type) : Type :=
| Ok (a : A)
| Throw (e : error).
Arguments Ok {A} a.
Arguments Throw {A} e.

(** [!!v] *)
Definition truthy (v : value) : bool :=
  match v with
  | VUndefined | VNull | VNaN => false
  | VBool b => b
  | VNum n => negb (n =? 0)
  | VStr s => negb (String.eqb s "")
  | VFun _ | VArr _ | VObj _ => true
  end.

(** [typeof v] *)
Definition typeof (v : value) : string :=
  match v with
  | VUndefined => "undefined"
  | VNull | VArr _ | VObj _ => "object"
  | VBool _ => "boolean"
  | VNum _ | VNaN => "number"
  | VStr _ => "string"
  | VFun _ => "function"
  end.

(** [Array.isArray(v)] *)
Definition isArray (v : value) : bool :=
  match v with VArr _ => true | _ => false end.

(** [v === false] and [v === undefined] *)
Definition is_false (v : value) : bool :=
  match v with VBool false => true | _ => false end.
Definition is_undefined (v : value) : bool :=
  match v with VUndefined => true | _ => false end.

(** [v.k] for a property name [k] that no prototype defines (here
    [testOptions]) and a [v] that is neither [null] nor [undefined]: an own
    property of a plain object, [undefined] anywhere else. *)
Definition get (v : value) (k : string) : value :=
  match v with
  | VObj props => default VUndefined (props !! k)
  | _ => VUndefined
  end.

(** Decimal spelling of an array index. *)
Definition index_key (i : nat) : string :=
  NilEmpty.string_of_uint (Nat.to_uint i).

Definition indexed {A : Type} (f : A -> value) (l : list A) : gmap string value :=
  list_to_map (imap (fun i x => (index_key i, f x)) l).

Definition chars (s : string) : list ascii := list_ascii_of_string s.

Definition byte_code (c : ascii) : Z := Z.of_nat (nat_of_ascii c).

Definition byte_char (n : Z) : ascii := ascii_of_nat (Z.to_nat n).

(** A UTF-16 surrogate, spelled on three bytes the way UTF-8 spells the
    other code units of that size. *)
Definition surrogate (unit : Z) : string :=
  string_of_list_ascii
    [byte_char (Z.lor 0xE0 (Z.shiftr unit 12));
     byte_char (Z.lor 0x80 (Z.land (Z.shiftr unit 6) 0x3F));
     byte_char (Z.lor 0x80 (Z.land unit 0x3F))].

(** The UTF-16 code units of a string, which are what a string is indexed
    by, each as a string of its own: a character that UTF-8 spells on one,
    two or three bytes is one code unit, a character on four bytes is a pair
    of surrogates. *)
Fixpoint code_units_from (fuel : nat) (s : list ascii) : list string :=
  match fuel, s with
  | O, _ | _, [] => []
  | S fuel', c0 :: rest =>
      let lead := byte_code c0 in
      if (0xC0 <=? lead) && (lead <? 0xE0) && (1 <=? length rest)%nat then
        string_of_list_ascii (c0 :: firstn 1 rest) :: code_units_from fuel' (skipn 1 rest)
      else if (0xE0 <=? lead) && (lead <? 0xF0) && (2 <=? length rest)%nat then
        string_of_list_ascii (c0 :: firstn 2 rest) :: code_units_from fuel' (skipn 2 rest)
      else if (0xF0 <=? lead) && (lead <? 0xF8) && (3 <=? length rest)%nat then
        let point :=
          Z.lor (Z.shiftl (Z.land lead 0x07) 18)
            (Z.lor (Z.shiftl (Z.land (byte_code (nth 0 rest c0)) 0x3F) 12)
               (Z.lor (Z.shiftl (Z.land (byte_code (nth 1 rest c0)) 0x3F) 6)
                      (Z.land (byte_code (nth 2 rest c0)) 0x3F))) in
        let offset := point - 0x10000 in
        surrogate (0xD800 + Z.shiftr offset 10)
          :: surrogate (0xDC00 + Z.land offset 0x3FF)
          :: code_units_from fuel' (skipn 3 rest)
      else String c0 EmptyString :: code_units_from fuel' rest
  end.

Definition code_units (s : string) : list string :=
  code_units_from (String.length s) (chars s).

(** The own enumerable properties of a value, as [Object.keys] and
    [Object.assign] see them: the properties of an object, the indices of an
    array or of the code units of a string, nothing for the other
    primitives. *)
Definition own_props (v : value) : gmap string value :=
  match v with
  | VObj props => props
  | VArr elements => indexed id elements
  | VStr s => indexed VStr (code_units s)
  | _ => ∅
  end.

(** [Object.keys(v).length] *)
Definition keys_length (v : value) : nat :=
  match v with
  | VObj props => size props
  | VArr elements => length elements
  | VStr s => length (code_units s)
  | _ => 0%nat
  end.

(** What [Object.assign] copies from one source into a target: every own
    enumerable property of the source is assigned to the target.  The
    assignment to [__proto__] of a target that has no own property of that
    name goes to the setter of [Object.prototype]: it makes no property.
    (A value that is an object or [null] becomes the prototype of the
    target, which these values do not record; the module itself reads such a
    target through [Object.assign] only, which copies own properties.  Of
    the sources of one call in this module at most one can have the
    property: the others are object literals of the module.) *)
Definition assign_from (target : gmap string value) (source : value)
  : gmap string value :=
  let props := own_props source in
  (if bool_decide (is_Some (target !! "__proto__")) then props
   else delete "__proto__" props) ∪ target.

(** [Object.assign(target, ...sources)]: sources are copied from left to
    right, so a later source overwrites an earlier one; [null] and
    [undefined] sources are skipped (they have no own properties). *)
Definition assign (target : gmap string value) (sources : list value)
  : gmap string value :=
  fold_left assign_from sources target.

(** [a && b] on values *)
Definition and_ (a b : value) : value := if truthy a then b else a.

End JS.
Import JS.

(** ** Babel options, the environment and the disk *)

(** A Babel config item: [value] is the plugin or preset it was created
    from, a function that is compared by identity. *)
Inductive item_type : Type := plugin | preset.

Record ConfigItem : Type := {
  item_value : positive;
  item_file : string;
  item_options : value;
  item_kind : item_type
}.

(** The [options] of a partial config: the two arrays that [build] edits in
    place and the remaining properties. *)
Record TestOptions : Type := {
  plugins : list ConfigItem;
  presets : list ConfigItem;
  settings : gmap string value
}.

(** [process.env]: every value is a string; an absent variable reads as
    [undefined], here [None]. *)
Abbreviation environment := (gmap string string).

(** The disk: regular files by path. *)
Abbreviation disk := (gmap string (list byte)).

(** What the module takes from outside: the process, the module loader,
    [@babel/core], [convert-source-map], [path.dirname], [JSON.stringify],
    the decoder of buffers, [./chalk] and the hash that names the temporary
    files of [@ava/write-file-atomic].  A function that can throw returns a
    [result].  The modules that [build] names are dependencies of AVA and are
    installed: [require], [require.resolve] and [babel.createConfigItem]
    return for them. *)
Class Host : Type := {
  (** [process.versions.node], the [version] of [../package.json] and
      [process.env] *)
  process_versions_node : string;
  pkg_version : string;
  process_env : environment;
  (** [require(ref)], by the identity of what it returns, and
      [require.resolve(ref)] *)
  require : string -> positive;
  require_resolve : string -> string;
  (** [@babel/core] *)
  (** [babel.loadPartialConfig] returns [null], here [None], when Babel
      ignores the file *)
  loadPartialConfig : gmap string value -> result (option TestOptions);
  babel_createConfigItem : string -> value -> item_type -> ConfigItem;
  loadOptions : TestOptions -> result value;
  transformSync : string -> gmap string value -> result (string * value);
  (** [convertSourceMap.fromSource(code)] and
      [convertSourceMap.fromMapFileSource(code, dir)], each followed by
      [toObject()]; the second reads the map file from the disk *)
  fromSource : string -> result (option value);
  fromMapFileSource : string -> string -> disk -> result (option value);
  dirname : string -> string;
  JSON_stringify : value -> string;
  (** [buf.toString('utf8')], the decoder of Node *)
  toString : list byte -> string;
  (** the message of the [TypeError] that the engine throws when [null] is
      destructured *)
  cannot_destructure : string;
  (** [chalk.underline] *)
  underline : string -> string;
  (** the MurmurHash3 of the module's file name, the process id and the
      invocation counter, a 32-bit number that ends the name of a temporary
      file; only the counter changes within a process *)
  murmur : N -> N
}.

(** ** [validate] *)

Section Validate.

Context `{Host}.

Definition recipe_url : string :=
  "https://github.com/avajs/ava/blob/master/docs/recipes/babel.md".

Definition unexpected_configuration : error :=
  Error ("Unexpected Babel configuration for AVA. See "
           +:+ underline recipe_url +:+ " for allowed values.").

Definition defaultOptions : gmap string value := {[ "babelrc" := VBool true ]}.

Definition validate (conf : value) : result value :=
  if is_false conf then Ok VNull
  else if is_undefined conf then
    Ok (VObj {[ "testOptions" := VObj defaultOptions ]})
  else if negb (truthy conf)
          || negb (String.eqb (typeof conf) "object")
          || negb (truthy (get conf "testOptions"))
          || negb (String.eqb (typeof (get conf "testOptions")) "object")
          || isArray (get conf "testOptions")
          || (1 <? keys_length conf)%nat
  then Throw unexpected_configuration
  else
    Ok (VObj {[ "testOptions" :=
                  VObj (assign ∅ [VObj defaultOptions; get conf "testOptions"]) ]}).

End Validate.

(** ** The effective environment name *)

(** [a || b] where [a] is a string or [undefined]: the empty string and
    [undefined] are the falsy ones. *)
Definition or_else (a b : option string) : option string :=
  match a with
  | Some s => if String.eqb s "" then b else a
  | None => b
  end.

(** ['NODE_ENV' in process.env] *)
Definition has_var (env : environment) (name : string) : bool :=
  bool_decide (is_Some (env !! name)).

(** [process.env.BABEL_ENV
       || ('NODE_ENV' in process.env ? process.env.NODE_ENV : 'test')
       || 'development'] *)
Definition envName (env : environment) : string :=
  default "development"
    (or_else
       (or_else (env !! "BABEL_ENV")
                (if has_var env "NODE_ENV" then env !! "NODE_ENV" else Some "test"))
       (Some "development")).

(** ** MD5, as [md5-hex] computes it

    [md5Hex(input)] feeds its input to Node's [crypto.createHash('md5')] and
    returns the digest in lower-case hexadecimal.  Given an array it updates
    the hash with each element in turn, which is the digest of the
    concatenation of the elements: nothing separates them.  The digest is the
    one of RFC 1321, on 32-bit words written as [Z] with the wrap-around
    spelled out. *)

Module MD5.

Definition wrap (x : Z) : Z := x mod 2 ^ 32.

Definition rotl (x c : Z) : Z :=
  Z.lor (wrap (Z.shiftl x c)) (Z.shiftr x (32 - c)).

Definition complement (x : Z) : Z := Z.lxor x 0xffffffff.

Definition shifts : list Z :=
  [ 7; 12; 17; 22;  7; 12; 17; 22;  7; 12; 17; 22;  7; 12; 17; 22;
    5;  9; 14; 20;  5;  9; 14; 20;  5;  9; 14; 20;  5;  9; 14; 20;
    4; 11; 16; 23;  4; 11; 16; 23;  4; 11; 16; 23;  4; 11; 16; 23;
    6; 10; 15; 21;  6; 10; 15; 21;  6; 10; 15; 21;  6; 10; 15; 21 ].

(** [floor (2^32 * |sin (i + 1)|)] for [i] from 0 to 63. *)
Definition sines : list Z :=
  [ 0xd76aa478; 0xe8c7b756; 0x242070db; 0xc1bdceee;
    0xf57c0faf; 0x4787c62a; 0xa8304613; 0xfd469501;
    0x698098d8; 0x8b44f7af; 0xffff5bb1; 0x895cd7be;
    0x6b901122; 0xfd987193; 0xa679438e; 0x49b40821;
    0xf61e2562; 0xc040b340; 0x265e5a51; 0xe9b6c7aa;
    0xd62f105d; 0x02441453; 0xd8a1e681; 0xe7d3fbc8;
    0x21e1cde6; 0xc33707d6; 0xf4d50d87; 0x455a14ed;
    0xa9e3e905; 0xfcefa3f8; 0x676f02d9; 0x8d2a4c8a;
    0xfffa3942; 0x8771f681; 0x6d9d6122; 0xfde5380c;
    0xa4beea44; 0x4bdecfa9; 0xf6bb4b60; 0xbebfbc70;
    0x289b7ec6; 0xeaa127fa; 0xd4ef3085; 0x04881d05;
    0xd9d4d039; 0xe6db99e5; 0x1fa27cf8; 0xc4ac5665;
    0xf4292244; 0x432aff97; 0xab9423a7; 0xfc93a039;
    0x655b59c3; 0x8f0ccc92; 0xffeff47d; 0x85845dd1;
    0x6fa87e4f; 0xfe2ce6e0; 0xa3014314; 0x4e0811a1;
    0xf7537e82; 0xbd3af235; 0x2ad7d2bb; 0xeb86d391 ].

Record state : Type := State { sa : Z; sb : Z; sc : Z; sd : Z }.

Definition initial : state :=
  State 0x67452301 0xefcdab89 0x98badcfe 0x10325476.

(** One of the 64 operations on a block of sixteen words. *)
Definition operation (block : list Z) (st : state) (i : nat) : state :=
  let '(State a b c d) := st in
  let n := Z.of_nat i in
  let '(f, g) :=
    if n <? 16 then (Z.lor (Z.land b c) (Z.land (complement b) d), n)
    else if n <? 32 then
      (Z.lor (Z.land d b) (Z.land (complement d) c), (5 * n + 1) mod 16)
    else if n <? 48 then (Z.lxor b (Z.lxor c d), (3 * n + 5) mod 16)
    else (Z.lxor c (Z.lor b (complement d)), (7 * n) mod 16) in
  let f' := wrap (f + a + nth i sines 0 + nth (Z.to_nat g) block 0) in
  State d (wrap (b + rotl f' (nth i shifts 0))) b c.

Definition compress (st : state) (block : list Z) : state :=
  let '(State a b c d) := fold_left (operation block) (seq 0 64) st in
  State (wrap (sa st + a)) (wrap (sb st + b)) (wrap (sc st + c)) (wrap (sd st + d)).

(** Little-endian bytes of a word and back. *)
Definition le_bytes (count : nat) (x : Z) : list Z :=
  map (fun k => (x / 2 ^ (8 * Z.of_nat k)) mod 256) (seq 0 count).

Definition le_word (bs : list Z) : Z :=
  fold_right (fun b acc => b + 256 * acc) 0 bs.

Fixpoint chunks {A : Type} (fuel size : nat) (l : list A) : list (list A) :=
  match fuel, l with
  | O, _ | _, [] => []
  | S fuel', _ => firstn size l :: chunks fuel' size (skipn size l)
  end.

(** The message, a one bit, zero bits up to 56 modulo 64 bytes, and the
    length of the message in bits on eight bytes. *)
Definition pad (message : list Z) : list Z :=
  let len := Z.of_nat (length message) in
  let zeros := Z.to_nat ((55 - len) mod 64) in
  message ++ [0x80] ++ repeat 0 zeros ++ le_bytes 8 ((8 * len) mod 2 ^ 64).

Definition blocks (message : list Z) : list (list Z) :=
  let padded := pad message in
  map (fun bytes => map le_word (chunks 16 4 bytes))
      (chunks (length padded) 64 padded).

Definition digest (message : list Z) : list Z :=
  let '(State a b c d) := fold_left compress (blocks message) initial in
  le_bytes 4 a ++ le_bytes 4 b ++ le_bytes 4 c ++ le_bytes 4 d.

Definition digits : list ascii := list_ascii_of_string "0123456789abcdef".

Definition hex_digit (n : Z) : ascii :=
  nth (Z.to_nat n) digits "0"%char.

Definition hex_byte (b : Z) : string :=
  String (hex_digit (b / 16)) (String (hex_digit (b mod 16)) EmptyString).

Definition hex (bytes : list Z) : string :=
  fold_right (fun b acc => hex_byte b +:+ acc) EmptyString bytes.

Definition octets (buf : list byte) : list Z :=
  map (fun b => Z.of_N (Byte.to_N b)) buf.

(** [crypto.createHash('md5').update(buf).digest('hex')] *)
Definition md5 (buf : list byte) : string := hex (digest (octets buf)).

End MD5.

(** A JavaScript string as the bytes [hash.update(s, 'utf8')] hashes: strings
    are kept in their UTF-8 encoding. *)
Definition utf8 (s : string) : list byte := list_byte_of_string s.

(** [md5Hex(input)] for an array [input] of strings and buffers, each given
    by its bytes. *)
Definition md5Hex (input : list (list byte)) : string :=
  MD5.md5 (concat input).

(** ** Paths: [path.extname] and [path.join] of Node, POSIX flavour *)

Module Path.

Definition slash : ascii := "/"%char.
Definition dot : ascii := "."%char.

Definition is_slash (c : ascii) : bool := Ascii.eqb c slash.
Definition is_dot (c : ascii) : bool := Ascii.eqb c dot.

Fixpoint take_while {A : Type} (p : A -> bool) (l : list A) : list A :=
  match l with
  | x :: l' => if p x then x :: take_while p l' else []
  | [] => []
  end.

Fixpoint drop_while {A : Type} (p : A -> bool) (l : list A) : list A :=
  match l with
  | x :: l' => if p x then drop_while p l' else l
  | [] => []
  end.

(** The last component of a path, trailing separators ignored, read from
    its end. *)
Definition last_component_rev (path : list ascii) : list ascii :=
  take_while (fun c => negb (is_slash c)) (drop_while is_slash (rev path)).

(** [path.extname]: from the last dot of the last component to its end;
    empty when there is no dot, when the only dot is the first character of
    the component, and when the component is [..]. *)
Definition extname_chars (path : list ascii) : list ascii :=
  let component := last_component_rev path in
  let after := take_while (fun c => negb (is_dot c)) component in
  match drop_while (fun c => negb (is_dot c)) component with
  | [] => []
  | _ :: [] => []
  | _ :: before =>
      if (match after, before with [], [c] => is_dot c | _, _ => false end)
      then []
      else dot :: rev after
  end.

Definition extname (path : string) : string :=
  string_of_list_ascii (extname_chars (list_ascii_of_string path)).

(** The segments between separators. *)
Fixpoint segments (path : list ascii) : list (list ascii) :=
  match path with
  | [] => [[]]
  | c :: rest =>
      if is_slash c then [] :: segments rest
      else match segments rest with
           | s :: more => (c :: s) :: more
           | [] => [[c]]
           end
  end.

(** [normalizeString]: the segments kept so far are a stack, newest first.
    Empty and [.] segments are dropped; [..] removes the newest segment
    unless there is none or it is itself [..], in which case it is kept for
    a relative path and dropped for an absolute one. *)
Definition push_segment (allowAboveRoot : bool) (kept : list (list ascii))
           (segment : list ascii) : list (list ascii) :=
  if bool_decide (segment = []) || bool_decide (segment = [dot]) then kept
  else if bool_decide (segment = [dot; dot]) then
    match kept with
    | top :: below =>
        if bool_decide (top = [dot; dot])
        then (if allowAboveRoot then segment :: kept else kept)
        else below
    | [] => if allowAboveRoot then [segment] else []
    end
  else segment :: kept.

Fixpoint intercalate (parts : list (list ascii)) : list ascii :=
  match parts with
  | [] => []
  | [p] => p
  | p :: rest => p ++ slash :: intercalate rest
  end.

Definition normalizeString (path : list ascii) (allowAboveRoot : bool) : list ascii :=
  intercalate (rev (fold_left (push_segment allowAboveRoot) (segments path) [])).

Definition starts_with_slash (path : list ascii) : bool :=
  match path with c :: _ => is_slash c | [] => false end.

(** [path.normalize] *)
Definition normalize_chars (path : list ascii) : list ascii :=
  match path with
  | [] => [dot]
  | _ =>
      let isAbsolute := starts_with_slash path in
      let trailingSeparator := starts_with_slash (rev path) in
      let body := normalizeString path (negb isAbsolute) in
      match body with
      | [] => if isAbsolute then [slash]
              else if trailingSeparator then [dot; slash] else [dot]
      | _ =>
          let body' := if trailingSeparator then body ++ [slash] else body in
          if isAbsolute then slash :: body' else body'
      end
  end.

(** [path.join(a, b)]: the non-empty arguments, joined by a separator and
    normalized. *)
Definition join_chars (a b : list ascii) : list ascii :=
  match a, b with
  | [], [] => [dot]
  | [], _ => normalize_chars b
  | _, [] => normalize_chars a
  | _, _ => normalize_chars (a ++ slash :: b)
  end.

Definition join (a b : string) : string :=
  string_of_list_ascii (join_chars (list_ascii_of_string a) (list_ascii_of_string b)).

End Path.

(** ** [strip-bom-buf] *)

(** The UTF-8 byte order mark. *)
Definition bom : list byte := [xef; xbb; xbf].

(** [is-utf8]: the bytes are a sequence of the characters that the package
    takes for UTF-8 text.  Of the ASCII range these are the tab, the line
    feed, the carriage return and the bytes from 0x20 to 0x7E; the longer
    forms are those of UTF-8 without overlong forms and surrogates.  A byte
    past the end reads as [undefined], which is in no range: here [-1]. *)
Module IsUtf8.

Definition between (lo x hi : Z) : bool := (lo <=? x) && (x <=? hi).

Definition at_ (bytes : list Z) (i : nat) : Z := nth i bytes (-1).

Definition one (b : list Z) : bool :=
  (at_ b 0 =? 0x09) || (at_ b 0 =? 0x0A) || (at_ b 0 =? 0x0D)
  || between 0x20 (at_ b 0) 0x7E.

Definition two (b : list Z) : bool :=
  between 0xC2 (at_ b 0) 0xDF && between 0x80 (at_ b 1) 0xBF.

Definition three (b : list Z) : bool :=
  ((at_ b 0 =? 0xE0) && between 0xA0 (at_ b 1) 0xBF && between 0x80 (at_ b 2) 0xBF)
  || ((between 0xE1 (at_ b 0) 0xEC || (at_ b 0 =? 0xEE) || (at_ b 0 =? 0xEF))
      && between 0x80 (at_ b 1) 0xBF && between 0x80 (at_ b 2) 0xBF)
  || ((at_ b 0 =? 0xED) && between 0x80 (at_ b 1) 0x9F && between 0x80 (at_ b 2) 0xBF).

Definition four (b : list Z) : bool :=
  ((at_ b 0 =? 0xF0) && between 0x90 (at_ b 1) 0xBF
   && between 0x80 (at_ b 2) 0xBF && between 0x80 (at_ b 3) 0xBF)
  || (between 0xF1 (at_ b 0) 0xF3 && between 0x80 (at_ b 1) 0xBF
      && between 0x80 (at_ b 2) 0xBF && between 0x80 (at_ b 3) 0xBF)
  || ((at_ b 0 =? 0xF4) && between 0x80 (at_ b 1) 0x8F
      && between 0x80 (at_ b 2) 0xBF && between 0x80 (at_ b 3) 0xBF).

(** The loop over the index [i], which is here the bytes from [i] on; it
    takes at least one byte at a time, so the length of the buffer is fuel
    enough. *)
Fixpoint scan (fuel : nat) (bytes : list Z) : bool :=
  match fuel, bytes with
  | _, [] => true
  | O, _ :: _ => false
  | S fuel', _ :: _ =>
      if one bytes then scan fuel' (skipn 1 bytes)
      else if two bytes then scan fuel' (skipn 2 bytes)
      else if three bytes then scan fuel' (skipn 3 bytes)
      else if four bytes then scan fuel' (skipn 4 bytes)
      else false
  end.

End IsUtf8.

(** [isUtf8(buf)] *)
Definition isUtf8 (buf : list byte) : bool :=
  IsUtf8.scan (length buf) (MD5.octets buf).

(** [x[0] === 0xEF && x[1] === 0xBB && x[2] === 0xBF] *)
Definition has_bom (buf : list byte) : bool :=
  match buf with
  | b0 :: b1 :: b2 :: _ => Byte.eqb b0 xef && Byte.eqb b1 xbb && Byte.eqb b2 xbf
  | _ => false
  end.

(** [stripBomBuf(buf)]: [buf.slice(3)] when the buffer begins with the byte
    order mark and [is-utf8] accepts the whole of it, the buffer itself
    otherwise. *)
Definition stripBomBuf (buf : list byte) : list byte :=
  if has_bom buf && isUtf8 buf then skipn 3 buf else buf.

(** ** The file system and the effects of the transform cache *)

(** What a call does, in order: the reads and the existence checks that the
    module asks of [fs], the calls of the transformation engine, and the
    three steps of an atomic write, which are the only steps that change the
    disk.  What a library reads on its own (the map file, inside
    [convertSourceMap.fromMapFileSource]) is not in the trace. *)
Inductive event : Type :=
| EReadFile (path : string)
| EExists (path : string)
| ETransform (inputCode : string) (options : gmap string value)
| EOpen (path : string)
| EWrite (path : string) (data : list byte)
| ERename (source target : string).

(** The effect of one event on the disk.  The cache directory exists and is
    writable, so opening, writing and renaming a file in it succeed. *)
Definition apply_event (files : disk) (e : event) : disk :=
  match e with
  | EReadFile _ | EExists _ | ETransform _ _ => files
  | EOpen path => <[path := []]> files
  | EWrite path data => <[path := data]> files
  | ERename source target =>
      match files !! source with
      | Some data => <[target := data]> (delete source files)
      | None => files
      end
  end.

Definition replay (events : list event) (files : disk) : disk :=
  fold_left apply_event events files.

Record world : Type := World {
  files : disk;
  (** every event so far, oldest first *)
  trace : list event;
  (** the counter [invocations] of [@ava/write-file-atomic] *)
  invocations : N
}.

(** A computation that reads and changes the world and returns or throws;
    what it did to the world before it threw stays done. *)
Definition M (A : Type) : Type := world -> result A * world.

Definition ret {A : Type} (a : A) : M A := fun w => (Ok a, w).

Definition throw {A : Type} (e : error) : M A := fun w => (Throw e, w).

Definition bind {A B : Type} (c : M A) (k : A -> M B) : M B :=
  fun w =>
    match c w with
    | (Ok a, w') => k a w'
    | (Throw e, w') => (Throw e, w')
    end.

Definition lift {A : Type} (r : result A) : M A := fun w => (r, w).

#[global] Instance M_ret : MRet M := @ret.
#[global] Instance M_bind : MBind M := fun A B k c => bind c k.

(** Record an event and let it act on the disk. *)
Definition emit (e : event) : M unit :=
  fun w => (Ok tt, World (apply_event (files w) e) (trace w ++ [e]) (invocations w)).

Definition get_files : M disk := fun w => (Ok (files w), w).

Definition enoent (path : string) : error :=
  Error ("ENOENT: no such file or directory, open '" +:+ path +:+ "'").

(** [fs.readFileSync(path)] *)
Definition readFileSync (path : string) : M (list byte) :=
  emit (EReadFile path);;
  disk ← get_files;
  match disk !! path with
  | Some data => ret data
  | None => throw (enoent path)
  end.

(** [fs.existsSync(path)] *)
Definition existsSync (path : string) : M bool :=
  emit (EExists path);;
  disk ← get_files;
  ret (bool_decide (is_Some (disk !! path))).

#[global] Instance result_ret : MRet result := @Ok.
#[global] Instance result_bind : MBind result := fun A B k r =>
  match r with
  | Ok a => k a
  | Throw e => Throw e
  end.

Definition newline : string := String "010"%char EmptyString.

(** [convertSourceMap.generateMapFileComment(file)] *)
Definition generateMapFileComment (file : string) : string :=
  "//# sourceMappingURL=" +:+ file.

(** The decimal spelling of a number, as [filename + '.' + n] appends it. *)
Definition decimal (n : N) : string := NilEmpty.string_of_uint (N.to_uint n).

(** ** The pipeline *)

(** [md5Hex(inputs)] for an array of strings. *)
Definition seedDigest (inputs : list string) : string :=
  md5Hex (map utf8 inputs).

Section Pipeline.

Context `{Host}.

Definition getTmpname (filename : string) (count : N) : string :=
  filename +:+ "." +:+ decimal (murmur count).

(** [writeFileAtomic.sync(filename, data)]: write a temporary file next to
    the target, then rename it over the target. *)
Definition writeFileAtomic_sync (filename : string) (data : string) : M unit :=
  fun w =>
    let count := (invocations w + 1)%N in
    let tmpfile := getTmpname filename count in
    (emit (EOpen tmpfile);;
     emit (EWrite tmpfile (utf8 data));;
     emit (ERename tmpfile filename))
      (World (files w) (trace w) count).

Definition getSourceMap (filePath code : string) : M value :=
  sourceMap ← lift (fromSource code);
  sourceMap ← match sourceMap with
              | Some _ => mret sourceMap
              | None =>
                  let dirPath := dirname filePath in
                  disk ← get_files;
                  lift (fromMapFileSource code dirPath disk)
              end;
  mret (default VUndefined sourceMap).

(** [babel.transformSync(inputCode, options)] *)
Definition babel_transformSync (inputCode : string) (options : gmap string value)
  : M (string * value) :=
  emit (ETransform inputCode options);;
  lift (transformSync inputCode options).

(** [md5Hex([cacheKey, contents])] *)
Definition contentDigest (cacheKey : string) (contents : list byte) : string :=
  md5Hex [utf8 cacheKey; contents].

(** [path.join(cacheDir, `${hash}${ext}`)] for the file [filename] whose
    bytes on disk are [raw]. *)
Definition cachePathOf (cacheDir cacheKey filename : string) (raw : list byte) : string :=
  let contents := stripBomBuf raw in
  let ext := Path.extname filename in
  let hash := contentDigest cacheKey contents in
  Path.join cacheDir (hash +:+ ext).

(** The function that [build] returns. *)
Definition ensureTransformed (cacheDir cacheKey : string) (finalOptions : value)
           (filename : string) : M string :=
  raw ← readFileSync filename;
  let contents := stripBomBuf raw in
  let cachePath := cachePathOf cacheDir cacheKey filename raw in
  cached ← existsSync cachePath;
  if cached : bool then mret cachePath
  else
    let inputCode := toString contents in
    inputSourceMap ← getSourceMap filename inputCode;
    '(code, map) ← babel_transformSync inputCode
        (assign ∅ [finalOptions;
                   VObj {[ "inputSourceMap" := inputSourceMap;
                           "filename" := VStr filename ]}]);
    let mapPath := cachePath +:+ ".map" in
    writeFileAtomic_sync mapPath (JSON_stringify map);;
    let comment := generateMapFileComment mapPath in
    writeFileAtomic_sync cachePath (code +:+ newline +:+ comment);;
    mret cachePath.

(** [({value}) => value === require(ref)] *)
Definition makeValueChecker (ref : string) (item : ConfigItem) : bool :=
  Pos.eqb (item_value item) (require ref).

(** [(ref, type, options = {}) =>
      babel.createConfigItem([require.resolve(ref), options], {type})] *)
Definition createConfigItem (ref : string) (type : item_type) (options : value) : ConfigItem :=
  babel_createConfigItem (require_resolve ref) options type.

Definition unshift_plugin (ref : string) (o : TestOptions) : TestOptions :=
  if existsb (makeValueChecker ref) (plugins o) then o
  else {| plugins := createConfigItem ref plugin (VObj ∅) :: plugins o;
          presets := presets o; settings := settings o |}.

Definition unshift_preset (ref : string) (o : TestOptions) : TestOptions :=
  if existsb (makeValueChecker ref) (presets o) then o
  else {| plugins := plugins o;
          presets := createConfigItem ref preset (VObj ∅) :: presets o;
          settings := settings o |}.

Definition push_preset (ref : string) (options : value) (o : TestOptions) : TestOptions :=
  if existsb (makeValueChecker ref) (presets o) then o
  else {| plugins := plugins o;
          presets := presets o ++ [createConfigItem ref preset options];
          settings := settings o |}.

(** [process.versions.node], [pkg.version], [projectDir] and [envName] *)
Definition seedInputs (projectDir : string) : list string :=
  [process_versions_node; pkg_version; projectDir; envName process_env].

(** [md5Hex(seedInputs)] *)
Definition cacheKeyOf (projectDir : string) : string :=
  seedDigest (seedInputs projectDir).

(** The argument of [babel.loadPartialConfig]. *)
Definition partialConfigInput (projectDir : string) (userOptions : value)
  : gmap string value :=
  assign {[ "babelrc" := VBool false;
            "babelrcRoots" := VArr [VStr projectDir];
            "configFile" := VBool false;
            "cwd" := VStr projectDir ]}
         [and_ userOptions (get userOptions "testOptions");
          VObj {[ "envName" := VStr (envName process_env);
                  "sourceMaps" := VBool true;
                  "filename" := VStr "stub.js" ]}].

(** The edits of [testOptions] between [loadPartialConfig] and
    [loadOptions], in the order of the source. *)
Definition prepareOptions (userOptions compileEnhancements : value)
           (o : TestOptions) : TestOptions :=
  let o := {| plugins := plugins o; presets := presets o;
              settings := <["configFile" := VBool false]> (delete "filename" (settings o)) |} in
  let o := unshift_plugin "@babel/plugin-syntax-async-generators" o in
  let o := unshift_plugin "@babel/plugin-syntax-object-rest-spread" o in
  let o := if truthy userOptions then unshift_preset "../stage-4" o else o in
  let o := if truthy compileEnhancements
           then push_preset "@ava/babel-preset-transform-test-files"
                            (VObj {[ "powerAssert" := VBool true ]}) o
           else o in
  o.

(** [const {options: testOptions} = partialTestConfig]: a [TypeError] when
    [partialTestConfig] is [null]. *)
Definition destructure (partialTestConfig : option TestOptions) : result TestOptions :=
  match partialTestConfig with
  | Some testOptions => Ok testOptions
  | None => Throw (TypeError cannot_destructure)
  end.

(** [build]: [None] is the [null] that tells the caller not to transform;
    otherwise the per-file function. *)
Definition build (projectDir cacheDir : string) (userOptions compileEnhancements : value)
  : result (option (string -> M string)) :=
  if negb (truthy userOptions) && negb (truthy compileEnhancements) then Ok None
  else
    partialTestConfig ← loadPartialConfig (partialConfigInput projectDir userOptions);
    partialTestConfig ← destructure partialTestConfig;
    let testOptions := prepareOptions userOptions compileEnhancements partialTestConfig in
    let cacheKey := cacheKeyOf projectDir in
    finalOptions ← loadOptions testOptions;
    mret (Some (ensureTransformed cacheDir cacheKey finalOptions)).

End Pipeline.

(** A configuration that [validate] accepts as written by the user: an
    object whose only property is [testOptions], itself an object that is
    not an array. *)
Definition conforming (conf : value) : Prop :=
  ∃ options, conf = VObj {[ "testOptions" := VObj options ]}.

(** ** A small host for worked examples

    Node 8.11.1 running AVA 1.0.0-beta.4 with an empty environment.  The
    stand-in for Babel keeps the options it is given and compiles by copying
    its input, behind a marker when the option [compact] is on; it rejects the
    program [}].  No file carries a source map.  The files of the examples
    are UTF-8 text, and strings are held in UTF-8: the decoder returns the
    bytes as they are. *)

Module Worked.

Definition engine (inputCode : string) (options : gmap string value)
  : result (string * value) :=
  if String.eqb inputCode "}" then
    Throw (Error "unknown: Unexpected token (1:0)")
  else
    match options !! "compact" with
    | Some (VBool true) => Ok ("/*compact*/" +:+ inputCode, VObj ∅)
    | _ => Ok (inputCode, VObj ∅)
    end.

#[local] Instance host : Host := {|
  process_versions_node := "8.11.1";
  pkg_version := "1.0.0-beta.4";
  process_env := ∅;
  require := fun ref => Pos.of_nat (String.length ref);
  require_resolve := fun ref => "/proj/node_modules/" +:+ ref;
  loadPartialConfig := fun input =>
    Ok (Some {| plugins := []; presets := []; settings := input |});
  babel_createConfigItem := fun file options type =>
    {| item_value := Pos.of_nat (String.length file - 19); item_file := file;
       item_options := options; item_kind := type |};
  loadOptions := fun o => Ok (VObj (settings o));
  transformSync := engine;
  fromSource := fun _ => Ok None;
  fromMapFileSource := fun _ _ _ => Ok None;
  dirname := fun _ => ".";
  JSON_stringify := fun _ => "{}";
  toString := string_of_list_byte;
  cannot_destructure := "Cannot destructure property `options` of 'undefined' or 'null'.";
  underline := fun s => s;
  murmur := fun count => (count * 2654435761 mod 2 ^ 32)%N
|}.

(** A project with two test files, the second of which does not parse,
    and an empty cache. *)
Definition projectDir : string := "/proj".
Definition cacheDir : string := "/proj/.cache".

Definition fresh : world :=
  World {[ "test/a.js" := utf8 "const x = 1;"; "test/broken.js" := utf8 "}" ]} [] 0.

(** A project whose test file begins with a byte order mark and ends in a
    form feed, which [is-utf8] does not take for text. *)
Definition marked : world :=
  World {[ "test/ff.js" := bom ++ utf8 "var a;" ++ [x0c] ]} [] 0.

(** [{testOptions: {presets: []}}] after [validate], and the same with
    [compact] switched on. *)
Definition plain : value :=
  VObj {[ "testOptions" := VObj {[ "babelrc" := VBool true; "presets" := VArr [] ]} ]}.

Definition compact : value :=
  VObj {[ "testOptions" := VObj {[ "babelrc" := VBool true; "presets" := VArr [];
                                   "compact" := VBool true ]} ]}.

Definition cacheKey : string := cacheKeyOf projectDir.

(** The cache entry of [test/a.js] and that of [test/broken.js]. *)
Definition entry : string :=
  cachePathOf cacheDir cacheKey "test/a.js" (utf8 "const x = 1;").

Definition broken_entry : string :=
  cachePathOf cacheDir cacheKey "test/broken.js" (utf8 "}").

End Worked.

(** A file name proper: not empty, no separator, neither [.] nor [..]. *)
Definition proper_name (name : list ascii) : Prop :=
  name ≠ []
  ∧ Forall (fun c => Path.is_slash c = false) name
  ∧ name ≠ [Path.dot] ∧ name ≠ [Path.dot; Path.dot].

(** What [path.join] puts in front of a proper file name. *)
Definition join_prefix (dir : list ascii) : list ascii :=
  match dir with
  | [] => []
  | _ =>
      let isAbsolute := Path.starts_with_slash dir in
      (if isAbsolute then [Path.slash] else [])
        ++ match rev (fold_left (Path.push_segment (negb isAbsolute))
                                (Path.segments dir) []) with
           | [] => []
           | parts => Path.intercalate parts ++ [Path.slash]
           end
  end.

(** The two buffers do not collide under MD5. *)
Definition no_collision (x y : list byte) : Prop :=
  MD5.md5 x = MD5.md5 y -> x = y.

(** Two arrays that differ in exactly one element. *)
Definition differ_in_one (l1 l2 : list string) : Prop :=
  ∃ before c1 c2 after,
    l1 = before ++ c1 :: after ∧ l2 = before ++ c2 :: after ∧ c1 ≠ c2.

(** ** Reading a trace *)

(** The steps that change the disk. *)
Definition is_mutation (e : event) : bool :=
  match e with
  | EOpen _ | EWrite _ _ | ERename _ _ => true
  | EReadFile _ | EExists _ | ETransform _ _ => false
  end.

Definition is_exists (e : event) : bool :=
  match e with EExists _ => true | _ => false end.

Definition is_transform (e : event) : bool :=
  match e with ETransform _ _ => true | _ => false end.

Definition count_events (p : event -> bool) (events : list event) : nat :=
  length (filter (fun e => p e = true) events).

(** The source map that [getSourceMap] finds for a file on a given disk. *)
Definition locatedSourceMap `{Host} (files : disk) (filePath code : string) : result value :=
  match fromSource code with
  | Throw e => Throw e
  | Ok (Some sourceMap) => Ok sourceMap
  | Ok None =>
      match fromMapFileSource code (dirname filePath) files with
      | Throw e => Throw e
      | Ok sourceMap => Ok (default VUndefined sourceMap)
      end
  end.

(** The options of one call of the engine. *)
Definition engineOptions (finalOptions inputSourceMap : value) (filename : string)
  : gmap string value :=
  assign ∅ [finalOptions;
            VObj {[ "inputSourceMap" := inputSourceMap; "filename" := VStr filename ]}].

(** The three steps of [writeFileAtomic.sync]. *)
Definition atomic_write (tmpfile filename : string) (data : string) : list event :=
  [EOpen tmpfile; EWrite tmpfile (utf8 data); ERename tmpfile filename].

(** The text of the map file and of the code file of a cache entry. *)
Definition mapFileText `{Host} (map : value) : string := JSON_stringify map.

Definition codeFileText (cachePath code : string) : string :=
  code +:+ newline +:+ generateMapFileComment (cachePath +:+ ".map").

(** The steps that publish a cache entry: the map file, then the code file. *)
Definition publication `{Host} (cachePath : string) (count : N) (code : string) (map : value)
  : list event :=
  let mapPath := cachePath +:+ ".map" in
  atomic_write (getTmpname mapPath (count + 1)) mapPath (mapFileText map)
  ++ atomic_write (getTmpname cachePath (count + 2)) cachePath (codeFileText cachePath code).

(** ** More names for the properties of [build] *)

(** The first argument of the [Object.assign] that makes the input of
    [babel.loadPartialConfig]. *)
Definition baseConfig (projectDir : string) : gmap string value :=
  {[ "babelrc" := VBool false;
     "babelrcRoots" := VArr [VStr projectDir];
     "configFile" := VBool false;
     "cwd" := VStr projectDir ]}.

(** The three properties that [build] sets after the user's. *)
Definition forced_key (k : string) : Prop :=
  k = "envName" ∨ k = "sourceMaps" ∨ k = "filename".

(** The four items that [build] may add. *)
Definition asyncGenerators `{Host} : ConfigItem :=
  createConfigItem "@babel/plugin-syntax-async-generators" plugin (VObj ∅).

Definition objectRestSpread `{Host} : ConfigItem :=
  createConfigItem "@babel/plugin-syntax-object-rest-spread" plugin (VObj ∅).

Definition stage4 `{Host} : ConfigItem :=
  createConfigItem "../stage-4" preset (VObj ∅).

Definition transformTestFiles `{Host} : ConfigItem :=
  createConfigItem "@ava/babel-preset-transform-test-files" preset
                   (VObj {[ "powerAssert" := VBool true ]}).

(** What the stand-in for Babel resolves from an empty configuration. *)
Definition Worked_resolved : TestOptions :=
  {| plugins := []; presets := [];
     settings := {[ "cwd" := VStr "/proj"; "filename" := VStr "stub.js" ]} |}.

(** A list on which [take_while p] stops at once. *)
Definition stops {A : Type} (p : A -> bool) (l : list A) : Prop :=
  match l with
  | [] => True
  | x :: _ => p x = false
  end.

(** A host whose files may carry source maps: the stand-in for
    [convert-source-map] finds an inline map in the program [inline], fails
    on the program [bad] and finds a map file for nothing. *)
Definition annotated_host : Host := {|
  process_versions_node := "8.11.1";
  pkg_version := "1.0.0-beta.4";
  process_env := ∅;
  require := fun ref => Pos.of_nat (String.length ref);
  require_resolve := fun ref => "/proj/node_modules/" +:+ ref;
  loadPartialConfig := fun input =>
    Ok (Some {| plugins := []; presets := []; settings := input |});
  babel_createConfigItem := fun file options type =>
    {| item_value := Pos.of_nat (String.length file - 19); item_file := file;
       item_options := options; item_kind := type |};
  loadOptions := fun o => Ok (VObj (settings o));
  transformSync := Worked.engine;
  fromSource := fun code =>
    if String.eqb code "inline" then Ok (Some (VObj {[ "version" := VNum 3 ]}))
    else if String.eqb code "bad" then Throw (Error "Unexpected token in JSON")
    else Ok None;
  fromMapFileSource := fun _ _ _ => Ok None;
  dirname := fun _ => ".";
  JSON_stringify := fun _ => "{}";
  toString := string_of_list_byte;
  cannot_destructure := "Cannot destructure property `options` of 'undefined' or 'null'.";
  underline := fun s => s;
  murmur := fun count => (count * 2654435761 mod 2 ^ 32)%N
|}.

(** A host whose Babel ignores every file: [babel.loadPartialConfig]
    returns [null]. *)
Definition ignoring_host : Host := {|
  process_versions_node := "8.11.1";
  pkg_version := "1.0.0-beta.4";
  process_env := ∅;
  require := fun ref => Pos.of_nat (String.length ref);
  require_resolve := fun ref => "/proj/node_modules/" +:+ ref;
  loadPartialConfig := fun _ => Ok None;
  babel_createConfigItem := fun file options type =>
    {| item_value := Pos.of_nat (String.length file - 19); item_file := file;
       item_options := options; item_kind := type |};
  loadOptions := fun o => Ok (VObj (settings o));
  transformSync := Worked.engine;
  fromSource := fun _ => Ok None;
  fromMapFileSource := fun _ _ _ => Ok None;
  dirname := fun _ => ".";
  JSON_stringify := fun _ => "{}";
  toString := string_of_list_byte;
  cannot_destructure := "Cannot destructure property `options` of 'undefined' or 'null'.";
  underline := fun s => s;
  murmur := fun count => (count * 2654435761 mod 2 ^ 32)%N
|}.

(** The disk of the worked example after a crash in the middle of the
    publication of [test/a.js]: the map file is in place and the temporary
    file of the code is open. *)
Definition interrupted : world :=
  World (replay (take 4 (publication (H := Worked.host) Worked.entry 0
                                     "const x = 1;" (VObj ∅)))
                (files Worked.fresh))
        [] 2.

(** * Properties *)

(** ** The library functions on examples *)

(** The test suite of RFC 1321, and an array hashed as its concatenation. *)
Example md5_empty : md5Hex [utf8 ""] = "d41d8cd98f00b204e9800998ecf8427e".
Proof. vm_compute. reflexivity. Qed.

Example md5_abc : md5Hex [utf8 "abc"] = "900150983cd24fb0d6963f7d28e17f72".
Proof. vm_compute. reflexivity. Qed.

Example md5_digits :
  md5Hex [utf8 "1234567890123456789012345678901234567890";
          utf8 "1234567890123456789012345678901234567890"]
  = "57edf4a22be3c955ac49da2e2107b67a".
Proof. vm_compute. reflexivity. Qed.

Example extname_examples :
  map Path.extname ["index.html"; "index.coffee.md"; "index."; "index"; ".index";
                    ".index.md"; "/a.b/c"; ".."; "test/fixture.js"]
  = [".html"; ".md"; "."; ""; ""; ".md"; ""; ""; ".js"].
Proof. reflexivity. Qed.

Example join_examples :
  (Path.join "/proj/.cache" "abc.js", Path.join "/proj/../.cache//x/./" "abc.js",
   Path.join "" "abc.js", Path.join "a/../.." "x")
  = ("/proj/.cache/abc.js", "/.cache/x/abc.js", "abc.js", "../x").
Proof. reflexivity. Qed.

(** ** The loops that are run on fuel *)

(** [is-utf8] takes at least one byte in every round: any fuel from the
    length of the buffer on gives the same answer, and the loop of [isUtf8]
    does not stop for want of it. *)
Lemma scan_enough (fuel1 fuel2 : nat) (bytes : list Z) :
  (length bytes <= fuel1)%nat -> (length bytes <= fuel2)%nat ->
  IsUtf8.scan fuel1 bytes = IsUtf8.scan fuel2 bytes.
Proof.
  revert fuel2 bytes. induction fuel1 as [|fuel1 IH]; intros fuel2 bytes H1 H2.
  - destruct bytes; [by destruct fuel2|cbn in H1; lia].
  - destruct bytes as [|b tail]; [by destruct fuel2|].
    destruct fuel2 as [|fuel2]; [cbn in H2; lia|].
    cbn [length] in H1, H2. cbn [IsUtf8.scan].
    repeat match goal with
           | |- (if ?c then _ else _) = (if ?c then _ else _) => destruct c
           end;
      try reflexivity;
      apply IH; rewrite length_skipn; cbn [length]; lia.
Qed.

Lemma scan_step (fuel : nat) (b : Z) (tail : list Z) :
  IsUtf8.scan (S fuel) (b :: tail)
  = if IsUtf8.one (b :: tail) then IsUtf8.scan fuel (skipn 1 (b :: tail))
    else if IsUtf8.two (b :: tail) then IsUtf8.scan fuel (skipn 2 (b :: tail))
    else if IsUtf8.three (b :: tail) then IsUtf8.scan fuel (skipn 3 (b :: tail))
    else if IsUtf8.four (b :: tail) then IsUtf8.scan fuel (skipn 4 (b :: tail))
    else false.
Proof. reflexivity. Qed.

(** The byte order mark is a character to [is-utf8]. *)
Lemma isUtf8_bom (rest : list byte) : isUtf8 (bom ++ rest) = isUtf8 rest.
Proof.
  unfold isUtf8.
  change (MD5.octets (bom ++ rest)) with (0xEF :: 0xBB :: 0xBF :: MD5.octets rest).
  change (length (bom ++ rest)) with (S (S (S (length rest)))).
  rewrite scan_step.
  change (IsUtf8.one (0xEF :: 0xBB :: 0xBF :: MD5.octets rest)) with false.
  change (IsUtf8.two (0xEF :: 0xBB :: 0xBF :: MD5.octets rest)) with false.
  change (IsUtf8.three (0xEF :: 0xBB :: 0xBF :: MD5.octets rest)) with true.
  cbn [skipn]. apply scan_enough; unfold MD5.octets; rewrite length_map; lia.
Qed.

(** A character takes at least one byte: the length of a string is fuel
    enough for its code units. *)
Lemma code_units_enough (fuel1 fuel2 : nat) (s : list ascii) :
  (length s <= fuel1)%nat -> (length s <= fuel2)%nat ->
  code_units_from fuel1 s = code_units_from fuel2 s.
Proof.
  revert fuel2 s. induction fuel1 as [|fuel1 IH]; intros fuel2 s H1 H2.
  - destruct s; [by destruct fuel2|cbn in H1; lia].
  - destruct s as [|c0 rest]; [by destruct fuel2|].
    destruct fuel2 as [|fuel2]; [cbn in H2; lia|].
    cbn [length] in H1, H2. cbn [code_units_from]. cbn zeta.
    repeat match goal with
           | |- (if ?c then _ else _) = (if ?c then _ else _) => destruct c
           end;
      by rewrite (IH fuel2) by (rewrite ?length_skipn; lia).
Qed.

(** ** Finite maps as objects *)

Lemma size_two_keys {A : Type} (m : gmap string A) (k1 k2 : string) :
  is_Some (m !! k1) -> is_Some (m !! k2) -> k1 ≠ k2 -> (2 <= size m)%nat.
Proof.
  intros H1 H2 Hne.
  assert (Hd : size (delete k1 m) ≠ 0%nat).
  { apply map_size_ne_0_lookup_2 with (i := k2). by rewrite lookup_delete_ne. }
  rewrite map_size_delete_Some in Hd by done. lia.
Qed.

Lemma single_key {A : Type} (m : gmap string A) (k : string) (v : A) :
  m !! k = Some v -> (size m <= 1)%nat -> m = {[ k := v ]}.
Proof.
  intros Hk Hsize. apply map_eq. intros i.
  destruct (decide (i = k)) as [->|Hne].
  - by rewrite lookup_singleton_eq.
  - rewrite lookup_singleton_ne by done.
    destruct (m !! i) eqn:Hi; [|done].
    pose proof (size_two_keys m i k) as Htwo.
    rewrite Hi, Hk in Htwo. specialize (Htwo (mk_is_Some _ _ eq_refl) (mk_is_Some _ _ eq_refl) Hne). lia.
Qed.

(** [Object.assign] onto a target without an own [__proto__] copies every
    own property of the source but [__proto__], over the target's. *)
Lemma assign_from_plain (target : gmap string value) (source : value) :
  target !! "__proto__" = None ->
  assign_from target source = delete "__proto__" (own_props source) ∪ target
  ∧ assign_from target source !! "__proto__" = None.
Proof.
  intros Hplain. unfold assign_from.
  rewrite bool_decide_eq_false_2 by (rewrite Hplain; by intros [? ?]).
  split; [reflexivity|].
  apply lookup_union_None. split; [apply lookup_delete_eq|done].
Qed.

(** [Object.assign({}, defaults, explicit)] is the union in which the
    explicit properties win, but for [__proto__], which is not copied. *)
Lemma assign_over_defaults (defaults explicit : gmap string value) :
  assign ∅ [VObj defaults; VObj explicit]
  = delete "__proto__" explicit ∪ delete "__proto__" defaults.
Proof.
  unfold assign. cbn [fold_left].
  destruct (assign_from_plain ∅ (VObj defaults)) as [-> _]; [done|].
  rewrite (right_id_L ∅ (∪)). cbn [own_props].
  destruct (assign_from_plain (delete "__proto__" defaults) (VObj explicit))
    as [-> _]; [apply lookup_delete_eq|reflexivity].
Qed.

Lemma defaultOptions_plain : delete "__proto__" defaultOptions = defaultOptions.
Proof. apply delete_id. reflexivity. Qed.

(** ** [validate] *)

Section ValidateFacts.

Context `{Host}.

Lemma validate_conforming (options : gmap string value) :
  validate (VObj {[ "testOptions" := VObj options ]})
  = Ok (VObj {[ "testOptions" := VObj (delete "__proto__" options ∪ defaultOptions) ]}).
Proof.
  unfold validate. cbn [is_false is_undefined truthy typeof negb orb].
  unfold get, keys_length. rewrite lookup_singleton_eq, map_size_singleton.
  cbn [from_option id]. by rewrite assign_over_defaults, defaultOptions_plain.
Qed.

(** Whatever [validate] accepts is [false], [undefined] or conforming. *)
Lemma validate_accepts (conf r : value) :
  validate conf = Ok r ->
  conf = VBool false ∨ conf = VUndefined ∨ conforming conf.
Proof.
  unfold validate.
  destruct (is_false conf) eqn:Hfalse.
  { destruct conf as [| |[|]| | | | | |]; try discriminate. by left. }
  destruct (is_undefined conf) eqn:Hundef.
  { destruct conf; try discriminate. by (right; left). }
  match goal with |- context [if ?b then _ else _] => destruct b eqn:Hshape end;
    [discriminate|].
  intros _. right. right.
  repeat (apply orb_false_elim in Hshape as [Hshape ?]).
  destruct conf as [| | | | | | | |props]; try discriminate.
  unfold get, keys_length in *.
  destruct (props !! "testOptions") as [t|] eqn:Ht; [|discriminate].
  destruct t as [| | | | | | | |options]; try discriminate.
  exists options. f_equal. apply single_key; [done|].
  match goal with H : (1 <? _)%nat = false |- _ => apply Nat.ltb_ge in H; lia end.
Qed.

Lemma validate_rejects (conf : value) :
  conf ≠ VBool false -> conf ≠ VUndefined -> ¬ conforming conf ->
  validate conf = Throw unexpected_configuration.
Proof.
  intros Hf Hu Hc.
  destruct (validate conf) as [r|e] eqn:Hv.
  - apply validate_accepts in Hv as [?|[?|?]]; contradiction.
  - revert Hv. unfold validate.
    repeat match goal with |- context [if ?b then _ else _] => destruct b end;
      congruence.
Qed.

End ValidateFacts.

(** ** The contract of [validate] and the pass-through of [build] *)

Section Configuration.

Context `{Host}.

Lemma build_pass_through (projectDir cacheDir : string) (userOptions enhancements : value) :
  truthy userOptions = false -> truthy enhancements = false ->
  build projectDir cacheDir userOptions enhancements = Ok None.
Proof. intros Hu He. unfold build. by rewrite Hu, He. Qed.

(** C7, amended.  [validate(false)] is the disabled value [null], with
    which [build] returns [null] when no enhancements are requested;
    [validate(undefined)] is the default record, in which [babelrc] is on;
    an object with any property besides [testOptions] is rejected with the
    configuration error; an object whose only property is an options object
    is accepted, the options merged over the defaults so that every explicit
    property but [__proto__] wins, [__proto__] is no property of the result,
    and every default that is not overridden stays. *)
Theorem validate_contract :
  validate (VBool false) = Ok VNull
  ∧ (∀ projectDir cacheDir enhancements,
      truthy enhancements = false ->
      build projectDir cacheDir VNull enhancements = Ok None)
  ∧ validate VUndefined = Ok (VObj {[ "testOptions" := VObj {[ "babelrc" := VBool true ]} ]})
  ∧ (∀ (props : gmap string value) (k : string),
        k ≠ "testOptions" -> is_Some (props !! k) ->
        validate (VObj props) = Throw unexpected_configuration)
  ∧ (∀ options : gmap string value,
        ∃ merged : gmap string value,
          validate (VObj {[ "testOptions" := VObj options ]})
          = Ok (VObj {[ "testOptions" := VObj merged ]})
          ∧ (∀ k v, k ≠ "__proto__" -> options !! k = Some v -> merged !! k = Some v)
          ∧ merged !! "__proto__" = None
          ∧ (∀ k, options !! k = None -> merged !! k = defaultOptions !! k)).
Proof.
  split; [reflexivity|]. split; [intros; by apply build_pass_through|].
  split; [reflexivity|]. split.
  - intros props k Hk Hsome. apply validate_rejects; [done|done|].
    intros [options Heq]. injection Heq as ->.
    rewrite lookup_singleton_ne in Hsome by done. by destruct Hsome.
  - intros options. exists (delete "__proto__" options ∪ defaultOptions).
    split; [apply validate_conforming|]. split; [|split].
    + intros k v Hne Hk. apply lookup_union_Some_l. by rewrite lookup_delete_ne.
    + apply lookup_union_None. split; [apply lookup_delete_eq|reflexivity].
    + intros k Hk. apply lookup_union_r.
      destruct (decide ("__proto__" = k)) as [<-|Hne];
        [apply lookup_delete_eq|by rewrite lookup_delete_ne].
Qed.

(** C9.  Only [false] disables and, among the inputs that are not
    conforming, only [undefined] selects the defaults: every other input
    that is falsy, that is not an object, or that is an object whose
    [testOptions] is absent, is not an object or is an array, is rejected
    with the configuration error. *)
Theorem validate_strict :
  (∀ conf, validate conf = Ok VNull -> conf = VBool false)
  ∧ (∀ conf, conf ≠ VBool false -> conf ≠ VUndefined -> ¬ conforming conf ->
             validate conf = Throw unexpected_configuration)
  ∧ (∀ conf, conf ≠ VBool false -> conf ≠ VUndefined ->
             truthy conf = false
             ∨ typeof conf ≠ "object"
             ∨ get conf "testOptions" = VUndefined
             ∨ typeof (get conf "testOptions") ≠ "object"
             ∨ isArray (get conf "testOptions") = true ->
             validate conf = Throw unexpected_configuration).
Proof.
  split; [|split].
  - intros conf Hv. destruct (validate_accepts _ _ Hv) as [?|[->|[options ->]]].
    + done.
    + discriminate Hv.
    + rewrite validate_conforming in Hv. discriminate Hv.
  - apply validate_rejects.
  - intros conf Hf Hu Hbad. apply validate_rejects; [done|done|].
    intros [options ->]. unfold get in Hbad. rewrite lookup_singleton_eq in Hbad.
    cbn in Hbad. destruct Hbad as [?|[?|[?|[?|?]]]]; done.
Qed.

End Configuration.

(** C7, as stated, fails: [Object.assign] assigns to [__proto__] of the
    fresh object, which creates no property, so that the explicit key
    [__proto__] of the options [{"__proto__": {"babelrc": false}}] is not in
    the merged options. *)
Lemma explicit_proto_key_is_dropped :
  ¬ (∀ (options merged : gmap string value) (k : string) (v : value),
        validate (H := Worked.host) (VObj {[ "testOptions" := VObj options ]})
        = Ok (VObj {[ "testOptions" := VObj merged ]}) ->
        options !! k = Some v -> merged !! k = Some v).
Proof.
  intros Hclaim.
  specialize (Hclaim {[ "__proto__" := VObj {[ "babelrc" := VBool false ]} ]}
                     {[ "babelrc" := VBool true ]}
                     "__proto__" (VObj {[ "babelrc" := VBool false ]})).
  assert (Hnone : ({[ "babelrc" := VBool true ]} : gmap string value) !! "__proto__"
                  = None) by reflexivity.
  rewrite Hclaim in Hnone; [discriminate Hnone| |reflexivity].
  rewrite validate_conforming. unfold defaultOptions.
  by rewrite delete_singleton_eq, (left_id_L ∅ (∪)).
Qed.

Lemma validate_contract_witness :
  build (H := Worked.host) "/proj" "/proj/.cache" VNull (VBool false) = Ok None
  ∧ validate (H := Worked.host)
             (VObj {[ "testOptions" := VObj {[ "presets" := VArr [] ]};
                      "extraKey" := VNum 1 ]})
    = Throw (unexpected_configuration (H := Worked.host))
  ∧ ∃ merged : gmap string value,
      validate (H := Worked.host)
               (VObj {[ "testOptions" := VObj {[ "babelrc" := VBool false;
                                                 "__proto__" := VNull ]} ]})
      = Ok (VObj {[ "testOptions" := VObj merged ]})
      ∧ merged !! "babelrc" = Some (VBool false)
      ∧ merged !! "__proto__" = None
      ∧ merged !! "presets" = defaultOptions !! "presets".
Proof.
  destruct (validate_contract (H := Worked.host))
    as (_ & Hbuild & _ & Hextra & Hmerge).
  refine (conj _ (conj _ _)).
  - apply Hbuild. reflexivity.
  - apply (Hextra _ "extraKey").
    + discriminate.
    + exists (VNum 1). vm_compute. reflexivity.
  - destruct (Hmerge {[ "babelrc" := VBool false; "__proto__" := VNull ]})
      as (merged & Hvalid & Hwin & Hproto & Hstay).
    exists merged. refine (conj Hvalid (conj _ (conj Hproto _))).
    + apply Hwin; [discriminate|]. vm_compute. reflexivity.
    + apply Hstay. vm_compute. reflexivity.
Defined.

Lemma validate_strict_witness :
  VBool false = VBool false
  ∧ validate (H := Worked.host) (VArr [VStr "testOptions"])
    = Throw (unexpected_configuration (H := Worked.host))
  ∧ validate (H := Worked.host) VNull = Throw (unexpected_configuration (H := Worked.host))
  ∧ validate (H := Worked.host) (VNum 0) = Throw (unexpected_configuration (H := Worked.host))
  ∧ validate (H := Worked.host) (VStr "") = Throw (unexpected_configuration (H := Worked.host))
  ∧ validate (H := Worked.host) (VStr "inherit")
    = Throw (unexpected_configuration (H := Worked.host))
  ∧ validate (H := Worked.host) (VObj ∅) = Throw (unexpected_configuration (H := Worked.host))
  ∧ validate (H := Worked.host) (VObj {[ "testOptions" := VStr "stage-4" ]})
    = Throw (unexpected_configuration (H := Worked.host))
  ∧ validate (H := Worked.host) (VObj {[ "testOptions" := VArr [] ]})
    = Throw (unexpected_configuration (H := Worked.host)).
Proof.
  destruct (validate_strict (H := Worked.host)) as (Hdisabled & Hshape & Hstrict).
  refine (conj _ (conj _ (conj _ (conj _ (conj _ (conj _ (conj _ (conj _ _)))))))).
  - apply Hdisabled. reflexivity.
  - apply Hshape; [discriminate | discriminate |]. intros [options Hconf]. discriminate Hconf.
  - apply Hstrict; [discriminate | discriminate |]. left. reflexivity.
  - apply Hstrict; [discriminate | discriminate |]. left. reflexivity.
  - apply Hstrict; [discriminate | discriminate |]. left. reflexivity.
  - apply Hstrict; [discriminate | discriminate |]. right. left. simpl. discriminate.
  - apply Hstrict; [discriminate | discriminate |]. right. right. left. reflexivity.
  - apply Hstrict; [discriminate | discriminate |].
    right. right. right. left. vm_compute. discriminate.
  - apply Hstrict; [discriminate | discriminate |].
    right. right. right. right. vm_compute. reflexivity.
Defined.

(** ** The effective environment name *)

Lemma has_var_true (env : environment) (name : string) :
  has_var env name = true <-> is_Some (env !! name).
Proof. unfold has_var. by rewrite bool_decide_eq_true. Qed.

(** The name by cases: a non-empty [BABEL_ENV]; else a non-empty [NODE_ENV];
    else Babel's default when [NODE_ENV] is set and empty, and [test] when it
    is not set. *)
Lemma envName_cases (env : environment) :
  envName env =
    match env !! "BABEL_ENV", env !! "NODE_ENV" with
    | Some override, mode =>
        if String.eqb override "" then
          match mode with
          | Some mode => if String.eqb mode "" then "development" else mode
          | None => "test"
          end
        else override
    | None, Some mode => if String.eqb mode "" then "development" else mode
    | None, None => "test"
    end.
Proof.
  unfold envName, has_var.
  destruct (env !! "BABEL_ENV") as [override|], (env !! "NODE_ENV") as [mode|];
    try destruct (String.eqb override "") eqn:Ho;
    try destruct (String.eqb mode "") eqn:Hm;
    cbn; rewrite ?Ho, ?Hm; cbn; rewrite ?Ho, ?Hm; reflexivity.
Qed.

(** An empty [NODE_ENV] is set, yet its value is not the name. *)
Example envName_empty_NODE_ENV :
  envName {[ "NODE_ENV" := "" ]} = "development".
Proof. vm_compute. reflexivity. Qed.

(** C2, as stated, fails: with [BABEL_ENV] absent and [NODE_ENV] set to the
    empty string, the name is not the value of [NODE_ENV]. *)
Lemma envName_not_always_NODE_ENV :
  ¬ (∀ (env : environment) (mode : string),
        env !! "BABEL_ENV" = None -> env !! "NODE_ENV" = Some mode ->
        envName env = mode).
Proof.
  intros Hclaim.
  specialize (Hclaim {[ "NODE_ENV" := "" ]} "" eq_refl eq_refl).
  vm_compute in Hclaim. discriminate Hclaim.
Qed.

(** C2, amended.  The name is [BABEL_ENV] when that is set and not empty;
    else it is [NODE_ENV] when that is set and not empty; when [NODE_ENV] is
    set to the empty string it counts as set, in that [test] is not used,
    and the name is Babel's default [development]; only when [NODE_ENV] is
    absent is the name [test]. *)
Theorem envName_resolution (env : environment) :
  (∀ override, env !! "BABEL_ENV" = Some override -> override ≠ "" ->
               envName env = override)
  ∧ (env !! "BABEL_ENV" = None ∨ env !! "BABEL_ENV" = Some "" ->
     (∀ mode, env !! "NODE_ENV" = Some mode -> mode ≠ "" -> envName env = mode)
     ∧ (env !! "NODE_ENV" = Some "" -> envName env = "development")
     ∧ (env !! "NODE_ENV" = None -> envName env = "test")).
Proof.
  rewrite envName_cases. split.
  - intros override -> Hne. apply String.eqb_neq in Hne. by rewrite Hne.
  - intros Habsent.
    assert (Hfall : match env !! "BABEL_ENV", env !! "NODE_ENV" with
                    | Some override, mode =>
                        if String.eqb override "" then
                          match mode with
                          | Some mode => if String.eqb mode "" then "development" else mode
                          | None => "test"
                          end
                        else override
                    | None, Some mode => if String.eqb mode "" then "development" else mode
                    | None, None => "test"
                    end
                    = match env !! "NODE_ENV" with
                      | Some mode => if String.eqb mode "" then "development" else mode
                      | None => "test"
                      end).
    { destruct Habsent as [-> | ->]; [by destruct (env !! "NODE_ENV")|reflexivity]. }
    rewrite Hfall. repeat split.
    + intros mode -> Hne. apply String.eqb_neq in Hne. by rewrite Hne.
    + by intros ->.
    + by intros ->.
Qed.

Lemma envName_resolution_witness :
  envName {[ "BABEL_ENV" := "production"; "NODE_ENV" := "ci" ]} = "production"
  ∧ envName {[ "NODE_ENV" := "ci" ]} = "ci"
  ∧ envName {[ "NODE_ENV" := "" ]} = "development"
  ∧ envName (∅ : environment) = "test".
Proof.
  refine (conj _ (conj _ (conj _ _))).
  - apply (proj1 (envName_resolution _)); [vm_compute; reflexivity | discriminate].
  - destruct (envName_resolution {[ "NODE_ENV" := "ci" ]}) as [_ Hfall].
    destruct Hfall as (Hmode & _ & _); [left; vm_compute; reflexivity|].
    apply Hmode; [vm_compute; reflexivity | discriminate].
  - destruct (envName_resolution {[ "NODE_ENV" := "" ]}) as [_ Hfall].
    destruct Hfall as (_ & Hempty & _); [left; vm_compute; reflexivity|].
    apply Hempty. vm_compute. reflexivity.
  - destruct (envName_resolution ∅) as [_ Hfall].
    destruct Hfall as (_ & _ & Habsent); [left; vm_compute; reflexivity|].
    apply Habsent. vm_compute. reflexivity.
Defined.

(** C10.  A [BABEL_ENV] that is set to the empty string is as good as
    absent: the name is the one of the environment without the variable,
    that is [NODE_ENV] or the defaults. *)
Theorem envName_empty_BABEL_ENV (env : environment) :
  envName (<["BABEL_ENV" := ""]> env) = envName (delete "BABEL_ENV" env)
  ∧ envName (<["BABEL_ENV" := ""]> env)
    = match env !! "NODE_ENV" with
      | Some mode => if String.eqb mode "" then "development" else mode
      | None => "test"
      end.
Proof.
  rewrite !envName_cases.
  rewrite lookup_insert_eq, lookup_delete_eq.
  rewrite lookup_insert_ne, lookup_delete_ne by discriminate.
  cbn. by destruct (env !! "NODE_ENV").
Qed.

(** ** Strings as lists of characters *)

Lemma chars_app (a b : string) :
  list_ascii_of_string (a +:+ b) = list_ascii_of_string a ++ list_ascii_of_string b.
Proof.
  induction a as [|c a IH]; [reflexivity|].
  change (list_ascii_of_string (String c a +:+ b))
    with (c :: list_ascii_of_string (a +:+ b)).
  by rewrite IH.
Qed.

Lemma chars_inj (a b : string) :
  list_ascii_of_string a = list_ascii_of_string b -> a = b.
Proof.
  intros Heq. rewrite <- (string_of_list_ascii_of_string a),
    <- (string_of_list_ascii_of_string b). by rewrite Heq.
Qed.

Lemma of_chars_inj (a b : list ascii) :
  string_of_list_ascii a = string_of_list_ascii b -> a = b.
Proof.
  intros Heq. rewrite <- (list_ascii_of_string_of_list_ascii a),
    <- (list_ascii_of_string_of_list_ascii b). by rewrite Heq.
Qed.

Lemma app_inj_length {A : Type} (a1 a2 b1 b2 : list A) :
  length a1 = length a2 -> a1 ++ b1 = a2 ++ b2 -> a1 = a2 ∧ b1 = b2.
Proof.
  revert a2. induction a1 as [|x a1 IH]; intros [|y a2] Hlen Heq;
    try discriminate; [done|].
  injection Hlen as Hlen. injection Heq as -> Heq.
  destruct (IH _ Hlen Heq) as [-> ->]. done.
Qed.

(** ** The digest is thirty-two hexadecimal digits *)

Lemma hex_digit_in (n : Z) : In (MD5.hex_digit n) MD5.digits.
Proof.
  unfold MD5.hex_digit. fold MD5.digits.
  destruct (Nat.lt_ge_cases (Z.to_nat n) (length MD5.digits)) as [Hlt|Hge].
  - by apply nth_In.
  - rewrite nth_overflow by done. cbn. auto.
Qed.

Lemma hex_cons (b : Z) (bytes : list Z) :
  list_ascii_of_string (MD5.hex (b :: bytes))
  = MD5.hex_digit (b / 16) :: MD5.hex_digit (b mod 16)
      :: list_ascii_of_string (MD5.hex bytes).
Proof. reflexivity. Qed.

Lemma hex_chars (bytes : list Z) :
  length (list_ascii_of_string (MD5.hex bytes)) = (2 * length bytes)%nat
  ∧ Forall (fun c => In c MD5.digits) (list_ascii_of_string (MD5.hex bytes)).
Proof.
  induction bytes as [|b bytes [IHlen IHall]]; [by split|].
  rewrite hex_cons. split.
  - cbn [length]. rewrite IHlen. lia.
  - repeat (apply Forall_cons; split; [apply hex_digit_in|]). done.
Qed.

Lemma digest_length (message : list Z) : length (MD5.digest message) = 16%nat.
Proof.
  unfold MD5.digest. destruct (fold_left _ _ _).
  rewrite !length_app. unfold MD5.le_bytes. by rewrite !length_map.
Qed.

Lemma md5Hex_chars (input : list (list byte)) :
  length (list_ascii_of_string (md5Hex input)) = 32%nat
  ∧ Forall (fun c => In c MD5.digits) (list_ascii_of_string (md5Hex input)).
Proof.
  unfold md5Hex, MD5.md5.
  destruct (hex_chars (MD5.digest (MD5.octets (concat input)))) as [Hlen Hall].
  rewrite digest_length in Hlen. done.
Qed.

Lemma hex_digit_no_slash (c : ascii) : In c MD5.digits -> Path.is_slash c = false.
Proof.
  cbn. intros Hin.
  repeat (destruct Hin as [<-|Hin]; [reflexivity|]). destruct Hin.
Qed.

(** ** Paths *)

Lemma take_while_holds {A : Type} (p : A -> bool) (l : list A) :
  Forall (fun x => p x = true) (Path.take_while p l).
Proof.
  induction l as [|x l IH]; cbn; [constructor|].
  destruct (p x) eqn:Hp; by constructor.
Qed.

Lemma take_while_keeps {A : Type} (P : A -> Prop) (p : A -> bool) (l : list A) :
  Forall P l -> Forall P (Path.take_while p l).
Proof.
  induction 1 as [|x l Hx Hl IH]; cbn; [constructor|].
  destruct (p x); by constructor.
Qed.

(** An extension holds no separator. *)
Lemma extname_no_slash (path : list ascii) :
  Forall (fun c => Path.is_slash c = false) (Path.extname_chars path).
Proof.
  unfold Path.extname_chars.
  set (component := Path.last_component_rev path).
  assert (Hcomponent : Forall (fun c => Path.is_slash c = false) component).
  { unfold component, Path.last_component_rev.
    eapply Forall_impl; [apply take_while_holds|].
    intros c Hc. by apply negb_true_iff in Hc. }
  destruct (Path.drop_while _ component) as [|d [|b before]]; [constructor..|].
  match goal with |- context [if ?b then _ else _] => destruct b end; [constructor|].
  constructor; [reflexivity|].
  apply Forall_rev. by apply take_while_keeps.
Qed.

Lemma segments_not_nil (path : list ascii) : Path.segments path ≠ [].
Proof.
  destruct path as [|c rest]; cbn; [discriminate|].
  destruct (Path.is_slash c); [discriminate|].
  destruct (Path.segments rest); discriminate.
Qed.

Lemma segments_app (a b : list ascii) :
  Path.segments (a ++ Path.slash :: b) = Path.segments a ++ Path.segments b.
Proof.
  induction a as [|c a IH]; [reflexivity|].
  cbn [app Path.segments]. rewrite IH.
  destruct (Path.is_slash c); [reflexivity|].
  pose proof (segments_not_nil a) as Hne.
  destruct (Path.segments a); [contradiction|reflexivity].
Qed.

Lemma segments_single (name : list ascii) :
  Forall (fun c => Path.is_slash c = false) name -> Path.segments name = [name].
Proof.
  induction 1 as [|c name Hc Hname IH]; [reflexivity|].
  cbn. by rewrite Hc, IH.
Qed.

Lemma push_proper (allowAboveRoot : bool) (kept : list (list ascii)) (name : list ascii) :
  proper_name name -> Path.push_segment allowAboveRoot kept name = name :: kept.
Proof.
  intros (Hne & _ & Hdot & Hdots). unfold Path.push_segment.
  by rewrite !bool_decide_eq_false_2.
Qed.

Lemma intercalate_snoc (parts : list (list ascii)) (name : list ascii) :
  Path.intercalate (parts ++ [name])
  = match parts with
    | [] => name
    | _ => Path.intercalate parts ++ Path.slash :: name
    end.
Proof.
  induction parts as [|p parts IH]; [reflexivity|].
  destruct parts as [|q parts]; [reflexivity|].
  change (Path.intercalate ((p :: q :: parts) ++ [name]))
    with (p ++ Path.slash :: Path.intercalate ((q :: parts) ++ [name])).
  rewrite IH.
  change (Path.intercalate (p :: q :: parts))
    with (p ++ Path.slash :: Path.intercalate (q :: parts)).
  by rewrite <- app_assoc.
Qed.

Lemma no_trailing_slash (name : list ascii) :
  Forall (fun c => Path.is_slash c = false) name ->
  Path.starts_with_slash (rev name) = false.
Proof.
  intros Hall. apply Forall_rev in Hall.
  destruct (rev name) as [|z l]; [reflexivity|]. cbn. by inversion Hall.
Qed.

Lemma normalize_proper (name : list ascii) :
  proper_name name -> Path.normalize_chars name = name.
Proof.
  intros Hname. pose proof Hname as (Hne & Hall & _).
  unfold Path.normalize_chars, Path.normalizeString.
  rewrite no_trailing_slash, segments_single by done. cbn [fold_left].
  rewrite push_proper by done. cbn [rev app Path.intercalate].
  destruct name as [|c rest]; [done|].
  inversion Hall as [|? ? Hc _]; subst. cbn [Path.starts_with_slash]. by rewrite Hc.
Qed.

Lemma join_proper (dir name : list ascii) :
  proper_name name -> Path.join_chars dir name = join_prefix dir ++ name.
Proof.
  intros Hname. pose proof Hname as (Hne & Hall & _).
  destruct dir as [|d dir'] eqn:Hdir.
  { unfold Path.join_chars. destruct name; [done|]. by rewrite normalize_proper. }
  rewrite <- Hdir.
  assert (Hjoin : Path.join_chars dir name = Path.normalize_chars (dir ++ Path.slash :: name)).
  { rewrite Hdir. unfold Path.join_chars. destruct name; [done|reflexivity]. }
  rewrite Hjoin. clear Hjoin.
  unfold Path.normalize_chars, Path.normalizeString, join_prefix.
  assert (Hfirst : Path.starts_with_slash (dir ++ Path.slash :: name)
                   = Path.starts_with_slash dir) by (by rewrite Hdir).
  assert (Hlast : Path.starts_with_slash (rev (dir ++ Path.slash :: name)) = false).
  { rewrite rev_app_distr. cbn [rev]. rewrite <- app_assoc.
    pose proof (no_trailing_slash name Hall) as Hrev.
    destruct (rev name) as [|z l] eqn:Hn; [|exact Hrev].
    apply (f_equal (@rev ascii)) in Hn. rewrite rev_involutive in Hn. done. }
  rewrite Hfirst, Hlast, segments_app, (segments_single name), fold_left_app by done.
  cbn [fold_left]. rewrite push_proper by done. cbn [rev].
  rewrite intercalate_snoc.
  set (parts := rev (fold_left _ (Path.segments dir) [])).
  destruct (dir ++ Path.slash :: name) eqn:Hcat.
  { rewrite Hdir in Hcat. discriminate Hcat. }
  rewrite Hdir at 1.
  destruct parts as [|p parts].
  - destruct name as [|c name']; [done|].
    destruct (Path.starts_with_slash dir); by rewrite ?app_nil_r.
  - set (body := Path.intercalate (p :: parts) ++ Path.slash :: name).
    assert (Hbody : body ≠ []) by (unfold body; by destruct (Path.intercalate _)).
    destruct body eqn:Hb; [done|]. rewrite <- Hb. unfold body.
    destruct (Path.starts_with_slash dir); cbn [app];
      by rewrite <- ?app_assoc.
Qed.

(** ** The cache path *)

Lemma utf8_length (s : string) : length (utf8 s) = length (list_ascii_of_string s).
Proof.
  unfold utf8, list_byte_of_string. by rewrite length_map.
Qed.

Lemma utf8_inj (a b : string) : utf8 a = utf8 b -> a = b.
Proof.
  unfold utf8. intros Heq.
  rewrite <- (string_of_list_byte_of_string a), <- (string_of_list_byte_of_string b).
  by rewrite Heq.
Qed.

Lemma extname_chars_of (path : string) :
  list_ascii_of_string (Path.extname path)
  = Path.extname_chars (list_ascii_of_string path).
Proof. unfold Path.extname. apply list_ascii_of_string_of_list_ascii. Qed.

(** The name of a cache entry, [`${hash}${ext}`], is a proper file name. *)
Lemma cache_name_proper (input : list (list byte)) (filename : string) :
  proper_name (list_ascii_of_string (md5Hex input +:+ Path.extname filename)).
Proof.
  destruct (md5Hex_chars input) as [Hlen Hhex].
  rewrite chars_app, extname_chars_of.
  assert (Hlong : (32 <= length (list_ascii_of_string (md5Hex input)
                                 ++ Path.extname_chars (list_ascii_of_string filename)))%nat).
  { rewrite length_app. lia. }
  repeat split.
  - intros Heq. rewrite Heq in Hlong. cbn in Hlong. lia.
  - apply Forall_app. split; [|apply extname_no_slash].
    eapply Forall_impl; [exact Hhex|]. apply hex_digit_no_slash.
  - intros Heq. rewrite Heq in Hlong. cbn in Hlong. lia.
  - intros Heq. rewrite Heq in Hlong. cbn in Hlong. lia.
Qed.

(** Two cache paths in one directory are equal only if the digests and the
    extensions are. *)
Lemma cache_path_inj (dir : string) (input1 input2 : list (list byte))
      (filename1 filename2 : string) :
  Path.join dir (md5Hex input1 +:+ Path.extname filename1)
  = Path.join dir (md5Hex input2 +:+ Path.extname filename2) ->
  md5Hex input1 = md5Hex input2 ∧ Path.extname filename1 = Path.extname filename2.
Proof.
  unfold Path.join. intros Heq. apply of_chars_inj in Heq.
  rewrite !join_proper in Heq by apply cache_name_proper.
  apply app_inv_head in Heq. rewrite !chars_app in Heq.
  apply app_inj_length in Heq as [Hhash Hext].
  - split; by apply chars_inj.
  - destruct (md5Hex_chars input1) as [-> _], (md5Hex_chars input2) as [-> _]. done.
Qed.

Lemma stripBomBuf_bom (rest : list byte) :
  isUtf8 (bom ++ rest) = true -> stripBomBuf (bom ++ rest) = rest.
Proof. intros Htext. unfold stripBomBuf. by rewrite Htext. Qed.

(** A buffer that [is-utf8] turns down keeps its byte order mark. *)
Lemma stripBomBuf_not_text (buf : list byte) :
  isUtf8 buf = false -> stripBomBuf buf = buf.
Proof. intros Htext. unfold stripBomBuf. by rewrite Htext, andb_false_r. Qed.

(** The bytes [EF BB BF] before [var a;] and a form feed: the form feed is
    no text to [is-utf8], the mark stays and is hashed. *)
Example stripBomBuf_form_feed :
  let marked := bom ++ utf8 "var a;" ++ [x0c] in
  let plain := utf8 "var a;" ++ [x0c] in
  stripBomBuf marked = marked
  ∧ contentDigest Worked.cacheKey (stripBomBuf marked) = "8b412665b57296340b1d6ee5ee1df9a5"
  ∧ contentDigest Worked.cacheKey (stripBomBuf plain) = "409df0effb29e539901ecbcbacd364a6".
Proof. vm_compute. done. Qed.

Lemma stripBomBuf_plain (buf : list byte) :
  (∀ rest, buf ≠ bom ++ rest) -> stripBomBuf buf = buf.
Proof.
  intros Hplain. unfold stripBomBuf.
  destruct (has_bom buf) eqn:Hbom; [|reflexivity].
  destruct buf as [|b0 [|b1 [|b2 rest]]]; try discriminate.
  cbn in Hbom. apply andb_prop in Hbom as [Hbom H2]. apply andb_prop in Hbom as [H0 H1].
  apply Byte.byte_dec_bl in H0, H1, H2. subst.
  by destruct (Hplain rest).
Qed.

Lemma cachePathOf_differs (cacheDir key1 key2 file1 file2 : string)
      (raw1 raw2 : list byte) :
  contentDigest key1 (stripBomBuf raw1) ≠ contentDigest key2 (stripBomBuf raw2) ->
  cachePathOf cacheDir key1 file1 raw1 ≠ cachePathOf cacheDir key2 file2 raw2.
Proof.
  intros Hdigest Hpath. unfold cachePathOf, contentDigest in *.
  by apply cache_path_inj in Hpath as [? _].
Qed.

Lemma contentDigest_differs (key1 key2 : string) (contents1 contents2 : list byte) :
  length (utf8 key1) = length (utf8 key2) ->
  key1 ≠ key2 ∨ contents1 ≠ contents2 ->
  no_collision (utf8 key1 ++ contents1) (utf8 key2 ++ contents2) ->
  contentDigest key1 contents1 ≠ contentDigest key2 contents2.
Proof.
  intros Hlen Hne Hfree Heq. unfold contentDigest, md5Hex in Heq.
  cbn [concat] in Heq. rewrite !app_nil_r in Heq.
  apply Hfree in Heq. apply app_inj_length in Heq as [Hkey Hcontents]; [|done].
  apply utf8_inj in Hkey. by destruct Hne.
Qed.

Lemma seedDigest_length (inputs : list string) : length (utf8 (seedDigest inputs)) = 32%nat.
Proof. rewrite utf8_length. apply md5Hex_chars. Qed.

(** Arrays that differ in one element have different concatenations. *)
Lemma differ_in_one_concat (l1 l2 : list string) :
  differ_in_one l1 l2 -> concat (map utf8 l1) ≠ concat (map utf8 l2).
Proof.
  intros (before & c1 & c2 & after & -> & -> & Hne) Heq.
  rewrite !map_app, !concat_app in Heq. cbn [map concat] in Heq.
  apply app_inv_head, app_inv_tail, utf8_inj in Heq. done.
Qed.

(** The same bytes under two names with different extensions are cached
    twice. *)
Example cachePathOf_by_extension :
  (cachePathOf "/proj/.cache" "d41d8cd98f00b204e9800998ecf8427e"
               "test/fixture.js" (utf8 "const x = 1;"),
   cachePathOf "/proj/.cache" "d41d8cd98f00b204e9800998ecf8427e"
               "test/fixture.mjs" (utf8 "const x = 1;"))
  = ("/proj/.cache/02df5b5702f8690a54edaa1d6b23b2fb.js",
     "/proj/.cache/02df5b5702f8690a54edaa1d6b23b2fb.mjs").
Proof. vm_compute. reflexivity. Qed.

(** C3, as stated, fails.  Byte-identical files under one configuration do
    not always share a cache path, because the path ends in the extension of
    the file; and a change of the content does not always change the cache
    path, because the leading byte order mark of a text is not hashed. *)
Lemma cache_path_not_content_alone :
  ¬ (∀ (cacheDir cacheKey file1 file2 : string) (raw : list byte),
        cachePathOf cacheDir cacheKey file1 raw = cachePathOf cacheDir cacheKey file2 raw)
  ∧ ¬ (∀ (cacheDir cacheKey file : string) (raw1 raw2 : list byte),
          raw1 ≠ raw2 ->
          cachePathOf cacheDir cacheKey file raw1 ≠ cachePathOf cacheDir cacheKey file raw2).
Proof.
  split.
  - intros Hclaim.
    specialize (Hclaim "/proj/.cache" "d41d8cd98f00b204e9800998ecf8427e"
                       "test/fixture.js" "test/fixture.mjs" (utf8 "const x = 1;")).
    vm_compute in Hclaim. discriminate Hclaim.
  - intros Hclaim.
    apply (Hclaim "/proj/.cache" "d41d8cd98f00b204e9800998ecf8427e" "test/fixture.js"
                  (bom ++ utf8 "const x = 1;") (utf8 "const x = 1;")).
    + vm_compute. discriminate.
    + reflexivity.
Qed.

(** The seed is hashed without separators: moving a character from the
    project directory to the environment name keeps the cache key. *)
Example seedDigest_concatenates :
  seedDigest ["8.11.1"; "1.0.0-beta.4"; "/proj/a"; "test"]
  = seedDigest ["8.11.1"; "1.0.0-beta.4"; "/proj/at"; "est"].
Proof. unfold seedDigest, md5Hex. f_equal. Qed.

(** C3, amended.  For a cache directory, and with the contents of a file
    being what [stripBomBuf] returns of its bytes (the bytes without a
    leading byte order mark when [is-utf8] accepts them, the bytes as they
    are otherwise): files with equal contents and names of the same
    extension get the same cache path under the same seed digest; files
    whose contents differ get different cache paths under the same seed
    digest; and two seeds that differ in exactly one component give
    different cache paths to the same content; the last two unless MD5
    collides on the inputs it is given. *)
Theorem cache_key_sensitivity (cacheDir : string) :
  (∀ (cacheKey file1 file2 : string) (raw1 raw2 : list byte),
      stripBomBuf raw1 = stripBomBuf raw2 ->
      Path.extname file1 = Path.extname file2 ->
      cachePathOf cacheDir cacheKey file1 raw1 = cachePathOf cacheDir cacheKey file2 raw2)
  ∧ (∀ (cacheKey file1 file2 : string) (raw1 raw2 : list byte),
        stripBomBuf raw1 ≠ stripBomBuf raw2 ->
        no_collision (utf8 cacheKey ++ stripBomBuf raw1)
                     (utf8 cacheKey ++ stripBomBuf raw2) ->
        cachePathOf cacheDir cacheKey file1 raw1 ≠ cachePathOf cacheDir cacheKey file2 raw2)
  ∧ (∀ (H1 H2 : Host) (projectDir1 projectDir2 file : string) (raw : list byte),
        differ_in_one (seedInputs (H := H1) projectDir1) (seedInputs (H := H2) projectDir2) ->
        no_collision (concat (map utf8 (seedInputs (H := H1) projectDir1)))
                     (concat (map utf8 (seedInputs (H := H2) projectDir2))) ->
        no_collision (utf8 (cacheKeyOf (H := H1) projectDir1) ++ stripBomBuf raw)
                     (utf8 (cacheKeyOf (H := H2) projectDir2) ++ stripBomBuf raw) ->
        cachePathOf cacheDir (cacheKeyOf (H := H1) projectDir1) file raw
        ≠ cachePathOf cacheDir (cacheKeyOf (H := H2) projectDir2) file raw).
Proof.
  split; [|split].
  - intros cacheKey file1 file2 raw1 raw2 Hraw Hext.
    unfold cachePathOf. by rewrite Hraw, Hext.
  - intros cacheKey file1 file2 raw1 raw2 Hraw Hfree.
    apply cachePathOf_differs, contentDigest_differs; auto.
  - intros H1 H2 projectDir1 projectDir2 file raw Hone Hseed Hfree.
    apply cachePathOf_differs, contentDigest_differs; [| |done].
    + unfold cacheKeyOf. by rewrite !seedDigest_length.
    + left. unfold cacheKeyOf, seedDigest, md5Hex. intros Hkey.
      apply Hseed in Hkey. by apply differ_in_one_concat in Hone.
Qed.

Lemma cache_key_sensitivity_witness :
  cachePathOf "/proj/.cache" (cacheKeyOf (H := Worked.host) "/proj")
              "test/a.js" (utf8 "const x = 1;")
  = cachePathOf "/proj/.cache" (cacheKeyOf (H := Worked.host) "/proj")
                "test/fixtures/b.js" (bom ++ utf8 "const x = 1;")
  ∧ cachePathOf "/proj/.cache" (cacheKeyOf (H := Worked.host) "/proj")
                "test/a.js" (utf8 "const x = 1;")
    ≠ cachePathOf "/proj/.cache" (cacheKeyOf (H := Worked.host) "/proj")
                  "test/a.js" (utf8 "const x = 2;")
  ∧ cachePathOf "/proj/.cache" (cacheKeyOf (H := Worked.host) "/proj")
                "test/a.js" (utf8 "const x = 1;")
    ≠ cachePathOf "/proj/.cache" (cacheKeyOf (H := Worked.host) "/other")
                  "test/a.js" (utf8 "const x = 1;").
Proof.
  destruct (cache_key_sensitivity "/proj/.cache") as (Hsame & Hcontent & Hseed).
  refine (conj _ (conj _ _)).
  - apply Hsame; vm_compute; reflexivity.
  - apply Hcontent.
    + vm_compute. discriminate.
    + intros Hmd5. vm_compute in Hmd5. discriminate Hmd5.
  - apply Hseed.
    + exists ["8.11.1"; "1.0.0-beta.4"], "/proj", "/other", ["test"].
      refine (conj _ (conj _ _)); [vm_compute; reflexivity..|discriminate].
    + intros Hmd5. vm_compute in Hmd5. discriminate Hmd5.
    + intros Hmd5. vm_compute in Hmd5. discriminate Hmd5.
Defined.

(** C8, as stated, fails: one byte order mark is stripped, so a file that
    begins with two of them and the same file without the first are hashed
    differently.  It fails as well when [is-utf8] turns the file down
    ([stripBomBuf_form_feed]). *)
Lemma byte_order_mark_stripped_once :
  ¬ (∀ (cacheDir cacheKey filename : string) (rest : list byte),
        contentDigest cacheKey (stripBomBuf (bom ++ rest))
        = contentDigest cacheKey (stripBomBuf rest)
        ∧ cachePathOf cacheDir cacheKey filename (bom ++ rest)
          = cachePathOf cacheDir cacheKey filename rest).
Proof.
  intros Hclaim.
  destruct (Hclaim "/proj/.cache" "d41d8cd98f00b204e9800998ecf8427e" "test/a.js"
                   (bom ++ utf8 "a")) as [Hdigest _].
  vm_compute in Hdigest. discriminate Hdigest.
Qed.

(** C8, amended.  A file that begins with a byte order mark and is text
    to [is-utf8], and the file without the mark, which does not itself begin
    with a byte order mark, have the same content digest and, under names
    with the same extension, the same cache path. *)
Theorem byte_order_mark_ignored (cacheDir cacheKey file1 file2 : string)
        (rest : list byte) :
  isUtf8 (bom ++ rest) = true ->
  (∀ tail, rest ≠ bom ++ tail) ->
  Path.extname file1 = Path.extname file2 ->
  contentDigest cacheKey (stripBomBuf (bom ++ rest))
  = contentDigest cacheKey (stripBomBuf rest)
  ∧ cachePathOf cacheDir cacheKey file1 (bom ++ rest)
    = cachePathOf cacheDir cacheKey file2 rest.
Proof.
  intros Htext Hplain Hext. unfold cachePathOf.
  by rewrite (stripBomBuf_bom _ Htext), stripBomBuf_plain, Hext.
Qed.

Lemma byte_order_mark_ignored_witness :
  contentDigest "d41d8cd98f00b204e9800998ecf8427e"
                (stripBomBuf (bom ++ utf8 "const x = 1;"))
  = contentDigest "d41d8cd98f00b204e9800998ecf8427e" (stripBomBuf (utf8 "const x = 1;"))
  ∧ cachePathOf "/proj/.cache" "d41d8cd98f00b204e9800998ecf8427e" "test/a.js"
                (bom ++ utf8 "const x = 1;")
    = cachePathOf "/proj/.cache" "d41d8cd98f00b204e9800998ecf8427e" "test/a.js"
                  (utf8 "const x = 1;").
Proof.
  apply byte_order_mark_ignored.
  - vm_compute. reflexivity.
  - intros tail Hbom. vm_compute in Hbom. discriminate Hbom.
  - reflexivity.
Defined.

(** ** Running the transform cache *)

Section Runs.

Context `{Host}.

Lemma getSourceMap_run (filePath code : string) (w : world) :
  getSourceMap filePath code w = (locatedSourceMap (files w) filePath code, w).
Proof.
  unfold getSourceMap, locatedSourceMap, mbind, M_bind, bind, lift, mret, M_ret, ret, get_files.
  destruct (fromSource code) as [[sourceMap|]|e]; try reflexivity.
  by destruct (fromMapFileSource code (dirname filePath) (files w)) as [sourceMap|e].
Qed.

Lemma writeFileAtomic_run (filename data : string) (w : world) :
  writeFileAtomic_sync filename data w
  = let tmp := getTmpname filename (invocations w + 1) in
    (Ok tt,
     World (replay [EOpen tmp; EWrite tmp (utf8 data); ERename tmp filename] (files w))
           (trace w ++ [EOpen tmp; EWrite tmp (utf8 data); ERename tmp filename])
           (invocations w + 1)).
Proof.
  unfold writeFileAtomic_sync, mbind, M_bind, bind, emit. cbn.
  by rewrite <- !app_assoc.
Qed.

(** The outcome of a call by cases: the file cannot be read; the entry
    exists; the source map cannot be located; the engine throws; the
    engine returns and the entry is published. *)
Lemma ensureTransformed_run (cacheDir cacheKey : string) (finalOptions : value)
      (filename : string) (w : world) :
  ensureTransformed cacheDir cacheKey finalOptions filename w
  = match files w !! filename with
    | None =>
        (Throw (enoent filename),
         World (files w) (trace w ++ [EReadFile filename]) (invocations w))
    | Some raw =>
        let cachePath := cachePathOf cacheDir cacheKey filename raw in
        let inputCode := toString (stripBomBuf raw) in
        let checked := trace w ++ [EReadFile filename; EExists cachePath] in
        if bool_decide (is_Some (files w !! cachePath)) then
          (Ok cachePath, World (files w) checked (invocations w))
        else
          match locatedSourceMap (files w) filename inputCode with
          | Throw e => (Throw e, World (files w) checked (invocations w))
          | Ok inputSourceMap =>
              let options := engineOptions finalOptions inputSourceMap filename in
              let called := checked ++ [ETransform inputCode options] in
              match transformSync inputCode options with
              | Throw e => (Throw e, World (files w) called (invocations w))
              | Ok (code, map) =>
                  let steps := publication cachePath (invocations w) code map in
                  (Ok cachePath,
                   World (replay steps (files w)) (called ++ steps) (invocations w + 2))
              end
          end
    end.
Proof.
  unfold ensureTransformed, readFileSync, existsSync.
  unfold mbind, M_bind, bind, emit, get_files, mret, M_ret, ret, throw.
  cbn [apply_event files trace invocations].
  destruct (files w !! filename) as [raw|] eqn:Hraw; [|reflexivity].
  cbn [apply_event files trace invocations].
  rewrite <- app_assoc. cbn [app].
  destruct (bool_decide (is_Some (files w !! cachePathOf cacheDir cacheKey filename raw)));
    [reflexivity|].
  rewrite getSourceMap_run. cbn [files].
  destruct (locatedSourceMap (files w) filename (toString (stripBomBuf raw)))
    as [inputSourceMap|e]; [|reflexivity].
  unfold babel_transformSync, mbind, M_bind, bind, emit, lift.
  cbn [apply_event files trace invocations].
  fold (engineOptions finalOptions inputSourceMap filename).
  destruct (transformSync _ _) as [[code map]|e]; [|reflexivity].
  rewrite writeFileAtomic_run. cbn zeta. cbn [files trace invocations].
  rewrite writeFileAtomic_run. cbn zeta. cbn [files trace invocations].
  unfold publication, atomic_write, mapFileText, codeFileText, replay.
  cbn [fold_left app]. rewrite <- !app_assoc. cbn [app].
  by replace (invocations w + 1 + 1)%N with (invocations w + 2)%N by lia.
Qed.

End Runs.

(** ** Names of temporary files *)

Lemma append_cons (x : ascii) (a b : string) : String x a +:+ b = String x (a +:+ b).
Proof. reflexivity. Qed.

Lemma append_assoc (a b c : string) : (a +:+ b) +:+ c = a +:+ (b +:+ c).
Proof.
  induction a as [|x a IH]; [reflexivity|]. rewrite !append_cons. by rewrite IH.
Qed.

Lemma append_inv_head (s a b : string) : s +:+ a = s +:+ b -> a = b.
Proof.
  induction s as [|x s IH]; [done|]. rewrite !append_cons.
  intros Heq. injection Heq as Heq. auto.
Qed.

Lemma append_empty (s : string) : s +:+ "" = s.
Proof. induction s as [|x s IH]; [reflexivity|]. by rewrite append_cons, IH. Qed.

Lemma append_longer (s t : string) : t ≠ "" -> s +:+ t ≠ s.
Proof.
  intros Hne Heq. apply Hne.
  apply (append_inv_head s). by rewrite Heq, append_empty.
Qed.

(** A decimal numeral is not the word [map]. *)
Lemma decimal_not_map (n : N) : decimal n ≠ "map".
Proof. unfold decimal. by destruct (N.to_uint n). Qed.

Section TemporaryNames.

Context `{Host}.

Lemma tmp_is_not_target (filename : string) (count : N) :
  getTmpname filename count ≠ filename.
Proof. unfold getTmpname. by apply append_longer. Qed.

Lemma map_tmp_is_not_code (cachePath : string) (count : N) :
  getTmpname (cachePath +:+ ".map") count ≠ cachePath.
Proof. unfold getTmpname. rewrite append_assoc. by apply append_longer. Qed.

Lemma code_tmp_is_not_map (cachePath : string) (count : N) :
  getTmpname cachePath count ≠ cachePath +:+ ".map".
Proof.
  unfold getTmpname. intros Heq. apply append_inv_head in Heq.
  injection Heq as Heq. by apply decimal_not_map in Heq.
Qed.

Lemma map_is_not_code (cachePath : string) : cachePath +:+ ".map" ≠ cachePath.
Proof. by apply append_longer. Qed.

End TemporaryNames.

(** ** Replaying a trace *)

Lemma replay_app (events1 events2 : list event) (files : disk) :
  replay (events1 ++ events2) files = replay events2 (replay events1 files).
Proof. apply fold_left_app. Qed.

Lemma replay_reads (events : list event) (files : disk) :
  Forall (fun e => is_mutation e = false) events -> replay events files = files.
Proof.
  induction 1 as [|e events He Hevents IH]; [reflexivity|].
  cbn. destruct e; try discriminate; exact IH.
Qed.

Lemma replay_take_reads (reads steps : list event) (files : disk) (n : nat) :
  Forall (fun e => is_mutation e = false) reads ->
  replay (take n (reads ++ steps)) files = replay (take (n - length reads) steps) files.
Proof.
  intros Hreads. rewrite take_app, replay_app.
  rewrite (replay_reads (take n reads)); [done|].
  by apply Forall_take.
Qed.

(** The disk after some of the three steps of an atomic write: nothing
    changes at a path that is neither the temporary file nor the target, and
    the target changes at the third step. *)
Lemma atomic_write_elsewhere (tmpfile filename data path : string) (files : disk) (n : nat) :
  path ≠ tmpfile -> path ≠ filename ->
  replay (take n (atomic_write tmpfile filename data)) files !! path = files !! path.
Proof.
  intros Htmp Htarget. unfold atomic_write.
  destruct n as [|[|[|n]]]; cbn; rewrite ?lookup_insert_eq.
  - done.
  - by rewrite lookup_insert_ne.
  - by rewrite !lookup_insert_ne.
  - rewrite take_nil. cbn. rewrite lookup_insert_ne, lookup_delete_ne by done.
    by rewrite !lookup_insert_ne.
Qed.

Lemma atomic_write_target (tmpfile filename data : string) (files : disk) (n : nat) :
  tmpfile ≠ filename ->
  replay (take n (atomic_write tmpfile filename data)) files !! filename
  = if (n <? 3)%nat then files !! filename else Some (utf8 data).
Proof.
  intros Htmp. unfold atomic_write.
  destruct n as [|[|[|n]]]; cbn; rewrite ?lookup_insert_eq.
  - done.
  - by rewrite lookup_insert_ne.
  - by rewrite !lookup_insert_ne.
  - rewrite take_nil. cbn. by rewrite lookup_insert_eq.
Qed.

Lemma count_events_app (p : event -> bool) (events1 events2 : list event) :
  count_events p (events1 ++ events2)
  = (count_events p events1 + count_events p events2)%nat.
Proof. unfold count_events. by rewrite filter_app, length_app. Qed.

Section Publication.

Context `{Host}.

(** After any number of the steps that publish an entry on a disk without
    the code file, the code file is absent, or it is the new code and the
    map file next to it is the new map. *)
Lemma publication_prefix (files : disk) (cachePath : string) (count : N)
      (code : string) (map : value) (n : nat) :
  files !! cachePath = None ->
  let after := replay (take n (publication cachePath count code map)) files in
  after !! cachePath = None
  ∨ (after !! cachePath = Some (utf8 (codeFileText cachePath code))
     ∧ after !! (cachePath +:+ ".map") = Some (utf8 (mapFileText map))).
Proof.
  intros Habsent. cbn zeta. unfold publication.
  pose proof (map_tmp_is_not_code cachePath (count + 1)) as Hmc.
  pose proof (tmp_is_not_target (cachePath +:+ ".map") (count + 1)) as Hmm.
  pose proof (tmp_is_not_target cachePath (count + 2)) as Hcc.
  pose proof (code_tmp_is_not_map cachePath (count + 2)) as Hcm.
  pose proof (map_is_not_code cachePath) as Hpaths.
  rewrite take_app, replay_app. cbn [length atomic_write].
  fold (atomic_write (getTmpname (cachePath +:+ ".map") (count + 1))
                     (cachePath +:+ ".map") (mapFileText map)).
  rewrite atomic_write_target by done.
  rewrite (atomic_write_elsewhere _ _ _ cachePath) by done.
  destruct (n - 3 <? 3)%nat eqn:Hn; [by left|right].
  split; [done|].
  rewrite atomic_write_elsewhere by done.
  rewrite atomic_write_target by done.
  apply Nat.ltb_ge in Hn.
  by replace (n <? 3)%nat with false by (symmetry; apply Nat.ltb_ge; lia).
Qed.

Lemma publication_result (files : disk) (cachePath : string) (count : N)
      (code : string) (map : value) :
  files !! cachePath = None ->
  let after := replay (publication cachePath count code map) files in
  after !! cachePath = Some (utf8 (codeFileText cachePath code))
  ∧ after !! (cachePath +:+ ".map") = Some (utf8 (mapFileText map)).
Proof.
  intros Habsent.
  destruct (publication_prefix files cachePath count code map 6 Habsent) as [Hnone|Hboth].
  - exfalso. revert Hnone. unfold publication.
    rewrite take_app, replay_app. cbn [length atomic_write].
    fold (atomic_write (getTmpname cachePath (count + 2)) cachePath
                       (codeFileText cachePath code)).
    rewrite atomic_write_target by apply tmp_is_not_target. discriminate.
  - exact Hboth.
Qed.

End Publication.

(** ** The protocol of the transform cache *)

Section Protocol.

Context `{Host}.

Variables cacheDir cacheKey : string.

(** After a call that returned a path, the code file is at that path, and
    the path is the cache path of what the file held. *)
Lemma ensureTransformed_returns (finalOptions : value) (filename path : string)
      (w w' : world) :
  ensureTransformed cacheDir cacheKey finalOptions filename w = (Ok path, w') ->
  ∃ raw, files w !! filename = Some raw
         ∧ path = cachePathOf cacheDir cacheKey filename raw
         ∧ is_Some (files w' !! path).
Proof.
  rewrite ensureTransformed_run.
  destruct (files w !! filename) as [raw|]; [|discriminate].
  cbn zeta. destruct (bool_decide _) eqn:Hmiss.
  - apply bool_decide_eq_true in Hmiss. intros [= <- <-]. by exists raw.
  - destruct (locatedSourceMap _ _ _) as [inputSourceMap|e]; [|discriminate].
    destruct (transformSync _ _) as [[code map]|e]; [|discriminate].
    apply bool_decide_eq_false, eq_None_not_Some in Hmiss.
    pose proof (publication_result (files w) _ (invocations w) code map Hmiss)
      as [Hcode _].
    cbn zeta in *. set (after := replay _ _) in *.
    intros [= <- <-]. exists raw. by repeat split.
Qed.

(** C4.  In a call that misses the cache, the disk changes only by the
    publication of the entry, which is the atomic write of the map file at
    [<cachePath>.map] followed by the atomic write of the code file at
    [cachePath]; a call that throws changes nothing.  After every prefix of
    the call's steps, the code file is absent, or it is the new code and
    the map file next to it is the new map. *)
Theorem map_published_before_code (finalOptions : value) (filename : string)
        (raw : list byte) (w : world) :
  files w !! filename = Some raw ->
  files w !! cachePathOf cacheDir cacheKey filename raw = None ->
  let cachePath := cachePathOf cacheDir cacheKey filename raw in
  let mapPath := cachePath +:+ ".map" in
  let outcome := ensureTransformed cacheDir cacheKey finalOptions filename w in
  ∃ (reads steps : list event) (code : string) (map : value),
    trace outcome.2 = trace w ++ reads ++ steps
    ∧ files outcome.2 = replay (reads ++ steps) (files w)
    ∧ Forall (fun e => is_mutation e = false) reads
    ∧ ((∃ e, outcome.1 = Throw e ∧ steps = [])
       ∨ (outcome.1 = Ok cachePath
          ∧ steps
            = atomic_write (getTmpname mapPath (invocations w + 1)) mapPath
                           (mapFileText map)
              ++ atomic_write (getTmpname cachePath (invocations w + 2)) cachePath
                              (codeFileText cachePath code)))
    ∧ ∀ n : nat,
        let after := replay (take n (reads ++ steps)) (files w) in
        after !! cachePath = None
        ∨ (after !! cachePath = Some (utf8 (codeFileText cachePath code))
           ∧ after !! mapPath = Some (utf8 (mapFileText map))).
Proof.
  intros Hraw Hmiss. cbn zeta. rewrite ensureTransformed_run, Hraw. cbn zeta.
  rewrite bool_decide_eq_false_2 by (rewrite Hmiss; by intros [? ?]).
  set (cachePath := cachePathOf cacheDir cacheKey filename raw) in *.
  set (inputCode := toString (stripBomBuf raw)).
  assert (Hquiet : ∀ reads (n : nat),
             Forall (fun e => is_mutation e = false) reads ->
             replay (take n (reads ++ [])) (files w) !! cachePath = None).
  { intros reads n Hreads. rewrite app_nil_r, replay_reads; [done|].
    by apply Forall_take. }
  destruct (locatedSourceMap (files w) filename inputCode) as [inputSourceMap|e].
  - set (options := engineOptions finalOptions inputSourceMap filename).
    destruct (transformSync inputCode options) as [[code map]|e].
    + exists [EReadFile filename; EExists cachePath; ETransform inputCode options],
        (publication cachePath (invocations w) code map), code, map.
      cbn [fst snd files trace]. rewrite <- !app_assoc.
      split; [done|]. split; [by rewrite replay_app|].
      split; [by repeat constructor|]. split; [by right|].
      intros n. rewrite replay_take_reads by (by repeat constructor).
      by apply publication_prefix.
    + exists [EReadFile filename; EExists cachePath; ETransform inputCode options],
        [], "", VUndefined.
      cbn [fst snd files trace]. rewrite <- !app_assoc.
      split; [done|]. split; [done|]. split; [by repeat constructor|].
      split; [left; by exists e|].
      intros n. left. apply Hquiet. by repeat constructor.
  - exists [EReadFile filename; EExists cachePath], [], "", VUndefined.
    cbn [fst snd files trace].
    split; [done|]. split; [done|]. split; [by repeat constructor|].
    split; [left; by exists e|].
    intros n. left. apply Hquiet. by repeat constructor.
Qed.

Lemma ensureTransformed_hit (finalOptions : value) (filename : string)
      (raw : list byte) (w : world) :
  files w !! filename = Some raw ->
  is_Some (files w !! cachePathOf cacheDir cacheKey filename raw) ->
  ensureTransformed cacheDir cacheKey finalOptions filename w
  = (Ok (cachePathOf cacheDir cacheKey filename raw),
     World (files w)
           (trace w ++ [EReadFile filename;
                        EExists (cachePathOf cacheDir cacheKey filename raw)])
           (invocations w)).
Proof.
  intros Hraw Hentry. rewrite ensureTransformed_run, Hraw. cbn zeta.
  by rewrite bool_decide_eq_true_2.
Qed.

(** A call on a file that an earlier call returned a path for, and that was
    not changed in between, is a hit on that path. *)
Lemma ensureTransformed_again (options0 finalOptions : value) (filename created : string)
      (raw : list byte) (w0 w : world) :
  files w0 !! filename = Some raw ->
  ensureTransformed cacheDir cacheKey options0 filename w0 = (Ok created, w) ->
  files w !! filename = Some raw ->
  ensureTransformed cacheDir cacheKey finalOptions filename w
  = (Ok created,
     World (files w) (trace w ++ [EReadFile filename; EExists created]) (invocations w)).
Proof.
  intros Hraw0 Hfirst Hraw.
  destruct (ensureTransformed_returns options0 filename created w0 w Hfirst)
    as (raw0 & Hread & -> & Hentry).
  rewrite Hraw0 in Hread. injection Hread as <-. by apply ensureTransformed_hit.
Qed.

(** C5.  When the cache path of a file is on the disk, a call returns it
    after reading the file and checking once that the path exists: the
    call adds one existence check to the trace and no call of the engine,
    and it changes nothing on the disk.  That is what happens to the call
    after the one that created the entry, which returns the same path. *)
Theorem cache_hit (finalOptions : value) (filename : string) (raw : list byte)
        (w : world) :
  files w !! filename = Some raw ->
  let cachePath := cachePathOf cacheDir cacheKey filename raw in
  let outcome := ensureTransformed cacheDir cacheKey finalOptions filename w in
  (is_Some (files w !! cachePath) ->
   outcome.1 = Ok cachePath
   ∧ trace outcome.2 = trace w ++ [EReadFile filename; EExists cachePath]
   ∧ count_events is_exists (trace outcome.2) = S (count_events is_exists (trace w))
   ∧ count_events is_transform (trace outcome.2) = count_events is_transform (trace w)
   ∧ count_events is_mutation (trace outcome.2) = count_events is_mutation (trace w)
   ∧ files outcome.2 = files w)
  ∧ (∀ (options0 : value) (w0 : world) (created : string),
        files w0 !! filename = Some raw ->
        ensureTransformed cacheDir cacheKey options0 filename w0 = (Ok created, w) ->
        outcome
        = (Ok created,
           World (files w) (trace w ++ [EReadFile filename; EExists created])
                 (invocations w))).
Proof.
  intros Hraw. cbn zeta. split.
  - intros Hentry. rewrite (ensureTransformed_hit _ _ raw) by done.
    cbn [fst snd trace files].
    set (events := [EReadFile filename; EExists _]).
    rewrite !count_events_app.
    assert (Hexists : count_events is_exists events = 1%nat) by reflexivity.
    assert (Hengine : count_events is_transform events = 0%nat) by reflexivity.
    assert (Hwrites : count_events is_mutation events = 0%nat) by reflexivity.
    rewrite Hexists, Hengine, Hwrites. repeat split; lia.
  - intros options0 w0 created Hraw0 Hfirst.
    by apply (ensureTransformed_again options0 finalOptions filename created raw w0 w).
Qed.

(** C6.  When the engine throws for a file that is not cached, the call
    throws the same error and the disk is as it was: neither the map file
    nor the code file of the entry is created or changed. *)
Theorem engine_error_propagates (finalOptions : value) (filename : string)
        (raw : list byte) (inputSourceMap : value) (e : error) (w : world) :
  files w !! filename = Some raw ->
  files w !! cachePathOf cacheDir cacheKey filename raw = None ->
  locatedSourceMap (files w) filename (toString (stripBomBuf raw)) = Ok inputSourceMap ->
  transformSync (toString (stripBomBuf raw))
                (engineOptions finalOptions inputSourceMap filename) = Throw e ->
  let cachePath := cachePathOf cacheDir cacheKey filename raw in
  let outcome := ensureTransformed cacheDir cacheKey finalOptions filename w in
  outcome.1 = Throw e
  ∧ files outcome.2 = files w
  ∧ files outcome.2 !! cachePath = None
  ∧ files outcome.2 !! (cachePath +:+ ".map") = files w !! (cachePath +:+ ".map")
  ∧ trace outcome.2
    = trace w ++ [EReadFile filename; EExists cachePath;
                  ETransform (toString (stripBomBuf raw))
                             (engineOptions finalOptions inputSourceMap filename)].
Proof.
  intros Hraw Hmiss Hmap Hengine. cbn zeta.
  rewrite ensureTransformed_run, Hraw. cbn zeta.
  rewrite bool_decide_eq_false_2 by (rewrite Hmiss; by intros [? ?]).
  rewrite Hmap, Hengine. cbn [fst snd files trace].
  by rewrite <- app_assoc.
Qed.

End Protocol.

Lemma map_published_before_code_witness :
  ∃ (reads steps : list event) (code : string) (map : value),
    trace (ensureTransformed (H := Worked.host) Worked.cacheDir Worked.cacheKey (VObj ∅)
                             "test/a.js" Worked.fresh).2
    = trace Worked.fresh ++ reads ++ steps
    ∧ files (ensureTransformed (H := Worked.host) Worked.cacheDir Worked.cacheKey (VObj ∅)
                               "test/a.js" Worked.fresh).2
      = replay (reads ++ steps) (files Worked.fresh)
    ∧ Forall (fun e => is_mutation e = false) reads
    ∧ ((∃ e, (ensureTransformed (H := Worked.host) Worked.cacheDir Worked.cacheKey (VObj ∅)
                                "test/a.js" Worked.fresh).1 = Throw e ∧ steps = [])
       ∨ ((ensureTransformed (H := Worked.host) Worked.cacheDir Worked.cacheKey (VObj ∅)
                             "test/a.js" Worked.fresh).1 = Ok Worked.entry
          ∧ steps
            = atomic_write (getTmpname (H := Worked.host) (Worked.entry +:+ ".map")
                                       (invocations Worked.fresh + 1))
                           (Worked.entry +:+ ".map") (mapFileText (H := Worked.host) map)
              ++ atomic_write (getTmpname (H := Worked.host) Worked.entry
                                          (invocations Worked.fresh + 2))
                              Worked.entry (codeFileText Worked.entry code)))
    ∧ ∀ n : nat,
        replay (take n (reads ++ steps)) (files Worked.fresh) !! Worked.entry = None
        ∨ (replay (take n (reads ++ steps)) (files Worked.fresh) !! Worked.entry
           = Some (utf8 (codeFileText Worked.entry code))
           ∧ replay (take n (reads ++ steps)) (files Worked.fresh)
               !! (Worked.entry +:+ ".map")
             = Some (utf8 (mapFileText (H := Worked.host) map))).
Proof.
  apply (map_published_before_code (H := Worked.host) Worked.cacheDir Worked.cacheKey
           (VObj ∅) "test/a.js" (utf8 "const x = 1;") Worked.fresh).
  - vm_compute. reflexivity.
  - vm_compute. reflexivity.
Defined.

Lemma cache_hit_witness :
  ((ensureTransformed (H := Worked.host) Worked.cacheDir Worked.cacheKey (VObj ∅) "test/a.js"
      (ensureTransformed (H := Worked.host) Worked.cacheDir Worked.cacheKey (VObj ∅)
                         "test/a.js" Worked.fresh).2).1
   = Ok Worked.entry
   ∧ count_events is_exists
       (trace (ensureTransformed (H := Worked.host) Worked.cacheDir Worked.cacheKey (VObj ∅)
                 "test/a.js"
                 (ensureTransformed (H := Worked.host) Worked.cacheDir Worked.cacheKey
                                    (VObj ∅) "test/a.js" Worked.fresh).2).2)
     = S (count_events is_exists
            (trace (ensureTransformed (H := Worked.host) Worked.cacheDir Worked.cacheKey
                                      (VObj ∅) "test/a.js" Worked.fresh).2)))
  ∧ ensureTransformed (H := Worked.host) Worked.cacheDir Worked.cacheKey (VObj ∅) "test/a.js"
      (ensureTransformed (H := Worked.host) Worked.cacheDir Worked.cacheKey (VObj ∅)
                         "test/a.js" Worked.fresh).2
    = (Ok Worked.entry,
       World (files (ensureTransformed (H := Worked.host) Worked.cacheDir Worked.cacheKey
                                       (VObj ∅) "test/a.js" Worked.fresh).2)
             (trace (ensureTransformed (H := Worked.host) Worked.cacheDir Worked.cacheKey
                                       (VObj ∅) "test/a.js" Worked.fresh).2
                ++ [EReadFile "test/a.js"; EExists Worked.entry])
             (invocations (ensureTransformed (H := Worked.host) Worked.cacheDir
                             Worked.cacheKey (VObj ∅) "test/a.js" Worked.fresh).2)).
Proof.
  assert (Hraw : files (ensureTransformed (H := Worked.host) Worked.cacheDir Worked.cacheKey
                          (VObj ∅) "test/a.js" Worked.fresh).2 !! "test/a.js"
                 = Some (utf8 "const x = 1;")) by (vm_compute; reflexivity).
  destruct (cache_hit (H := Worked.host) Worked.cacheDir Worked.cacheKey (VObj ∅)
              "test/a.js" (utf8 "const x = 1;") _ Hraw) as [Hhit Hagain].
  split.
  - destruct Hhit as (Hpath & _ & Hcount & _).
    + exists (utf8 (codeFileText Worked.entry "const x = 1;")). vm_compute. reflexivity.
    + split; [exact Hpath | exact Hcount].
  - apply (Hagain (VObj ∅) Worked.fresh Worked.entry).
    + vm_compute. reflexivity.
    + vm_compute. reflexivity.
Defined.

Lemma engine_error_propagates_witness :
  (ensureTransformed (H := Worked.host) Worked.cacheDir Worked.cacheKey (VObj ∅)
                     "test/broken.js" Worked.fresh).1
  = Throw (Error "unknown: Unexpected token (1:0)")
  ∧ files (ensureTransformed (H := Worked.host) Worked.cacheDir Worked.cacheKey (VObj ∅)
                             "test/broken.js" Worked.fresh).2
    = files Worked.fresh
  ∧ files (ensureTransformed (H := Worked.host) Worked.cacheDir Worked.cacheKey (VObj ∅)
                             "test/broken.js" Worked.fresh).2 !! Worked.broken_entry
    = None
  ∧ files (ensureTransformed (H := Worked.host) Worked.cacheDir Worked.cacheKey (VObj ∅)
                             "test/broken.js" Worked.fresh).2
      !! (Worked.broken_entry +:+ ".map")
    = files Worked.fresh !! (Worked.broken_entry +:+ ".map")
  ∧ trace (ensureTransformed (H := Worked.host) Worked.cacheDir Worked.cacheKey (VObj ∅)
                             "test/broken.js" Worked.fresh).2
    = trace Worked.fresh
        ++ [EReadFile "test/broken.js"; EExists Worked.broken_entry;
            ETransform (@toString Worked.host (stripBomBuf (utf8 "}")))
                       (engineOptions (VObj ∅) VUndefined "test/broken.js")].
Proof.
  apply (engine_error_propagates (H := Worked.host) Worked.cacheDir Worked.cacheKey
           (VObj ∅) "test/broken.js" (utf8 "}") VUndefined
           (Error "unknown: Unexpected token (1:0)") Worked.fresh).
  - vm_compute. reflexivity.
  - vm_compute. reflexivity.
  - vm_compute. reflexivity.
  - vm_compute. reflexivity.
Defined.

(** ** Configuration and the cache key *)

Section Reconfiguration.

Context `{Host}.

(** The function that [build] returns is the transform cache under the
    seed digest of the project directory, whatever the user's options and
    the enhancements are: they reach the engine and not the cache key. *)
Lemma build_returns (projectDir cacheDir : string) (userOptions enhancements : value)
      (transform : string -> M string) :
  build projectDir cacheDir userOptions enhancements = Ok (Some transform) ->
  ∃ finalOptions,
    transform = ensureTransformed cacheDir (cacheKeyOf projectDir) finalOptions.
Proof.
  unfold build.
  destruct (negb (truthy userOptions) && negb (truthy enhancements)); [discriminate|].
  unfold mbind, result_bind, mret, result_ret.
  destruct (loadPartialConfig _) as [[partialTestConfig|]|e]; [|discriminate..].
  cbn [destructure].
  destruct (loadOptions _) as [finalOptions|e]; [|discriminate].
  intros [= <-]. by exists finalOptions.
Qed.

(** After a file was transformed under one configuration, the pipeline
    built from any other configuration for the same project directory and
    cache directory returns the entry of the first without calling the
    engine. *)
Lemma reconfigured_pipeline_hits (projectDir cacheDir : string)
      (options1 enhancements1 options2 enhancements2 : value)
      (transform1 transform2 : string -> M string)
      (filename path : string) (raw : list byte) (w w1 : world) :
  build projectDir cacheDir options1 enhancements1 = Ok (Some transform1) ->
  build projectDir cacheDir options2 enhancements2 = Ok (Some transform2) ->
  files w !! filename = Some raw ->
  transform1 filename w = (Ok path, w1) ->
  files w1 !! filename = Some raw ->
  transform2 filename w1
  = (Ok path, World (files w1) (trace w1 ++ [EReadFile filename; EExists path])
                    (invocations w1)).
Proof.
  intros Hbuild1 Hbuild2 Hraw Hfirst Hraw1.
  apply build_returns in Hbuild1 as [final1 ->], Hbuild2 as [final2 ->].
  by apply (ensureTransformed_again cacheDir (cacheKeyOf projectDir) final1 final2
              filename path raw w w1).
Qed.

End Reconfiguration.

(** C1, on the code.  The project of the worked example is built twice,
    first with [{testOptions: {presets: []}}] and then with [compact]
    switched on, in the same environment.  The first pipeline transforms
    [test/a.js]; the second pipeline, asked for the same file, returns the
    same cache path without calling the engine, and what is at that path is
    the output of the first configuration, not the output that the second
    configuration produces on an empty cache. *)
Theorem changed_options_reuse_entry :
  match build (H := Worked.host) Worked.projectDir Worked.cacheDir Worked.plain (VBool false),
        build (H := Worked.host) Worked.projectDir Worked.cacheDir Worked.compact (VBool false)
  with
  | Ok (Some transformPlain), Ok (Some transformCompact) =>
      let first := transformPlain "test/a.js" Worked.fresh in
      let second := transformCompact "test/a.js" first.2 in
      let alone := transformCompact "test/a.js" Worked.fresh in
      first.1 = Ok "/proj/.cache/074b83895569dcf205275e9eab20a169.js"
      ∧ second.1 = Ok "/proj/.cache/074b83895569dcf205275e9eab20a169.js"
      ∧ alone.1 = Ok "/proj/.cache/074b83895569dcf205275e9eab20a169.js"
      ∧ count_events is_transform (trace first.2) = 1%nat
      ∧ count_events is_transform (trace second.2) = 1%nat
      ∧ files second.2 !! "/proj/.cache/074b83895569dcf205275e9eab20a169.js"
        = Some (utf8 ("const x = 1;" +:+ newline
                        +:+ "//# sourceMappingURL=/proj/.cache/074b83895569dcf205275e9eab20a169.js.map"))
      ∧ files alone.2 !! "/proj/.cache/074b83895569dcf205275e9eab20a169.js"
        = Some (utf8 ("/*compact*/const x = 1;" +:+ newline
                        +:+ "//# sourceMappingURL=/proj/.cache/074b83895569dcf205275e9eab20a169.js.map"))
  | _, _ => False
  end.
Proof. vm_compute. repeat split; reflexivity. Qed.

(** * Further properties of the module *)

(** ** [validate] and [build] together *)

Section ValidateAndBuild.

Context `{Host}.

(** X1.  Validating twice is validating once, for options that have no
    own property [__proto__] (with one, the object that [validate] returns
    has another prototype than the object that a second validation returns):
    what [validate] returns for a configuration that is not [false] is
    itself a configuration that [validate] accepts and returns as it is. *)
Theorem validate_idempotent (conf r : value) :
  own_props (get conf "testOptions") !! "__proto__" = None ->
  validate conf = Ok r -> r ≠ VNull -> validate r = Ok r.
Proof.
  intros Hplain Hv Hr. destruct (validate_accepts _ _ Hv) as [->|[->|[options ->]]].
  - cbn in Hv. congruence.
  - cbn in Hv. injection Hv as <-. unfold defaultOptions.
    rewrite validate_conforming. unfold defaultOptions.
    rewrite delete_id by reflexivity.
    by rewrite (idemp_L (∪)).
  - unfold get in Hplain. rewrite lookup_singleton_eq in Hplain.
    cbn [from_option id own_props] in Hplain.
    rewrite validate_conforming in Hv. injection Hv as <-.
    rewrite validate_conforming.
    rewrite (delete_id options) by done.
    rewrite delete_id
      by (apply lookup_union_None; split; [done|reflexivity]).
    by rewrite <- (assoc_L (∪)), (idemp_L (∪) defaultOptions).
Qed.

Lemma build_guard (projectDir cacheDir : string) (userOptions enhancements : value) :
  build projectDir cacheDir userOptions enhancements = Ok None
  <-> truthy userOptions = false ∧ truthy enhancements = false.
Proof.
  unfold build. split.
  - destruct (truthy userOptions), (truthy enhancements); cbn; try done;
      unfold mbind, result_bind, mret, result_ret;
      destruct (loadPartialConfig _) as [[?|]|?]; try discriminate;
      cbn [destructure]; destruct (loadOptions _); discriminate.
  - intros [-> ->]. reflexivity.
Qed.

(** X2.  [build] returns [null] exactly when neither user options nor
    enhancements are requested.  With either of them it returns a function
    or throws: what [babel.loadPartialConfig] throws; a [TypeError], when
    Babel ignores the file and [babel.loadPartialConfig] returns [null], of
    which [build] then takes the [options]; or what [babel.loadOptions]
    throws. *)
Theorem build_null_iff (projectDir cacheDir : string) (userOptions enhancements : value) :
  (build projectDir cacheDir userOptions enhancements = Ok None
   <-> truthy userOptions = false ∧ truthy enhancements = false)
  ∧ (truthy userOptions = true ∨ truthy enhancements = true ->
     match loadPartialConfig (partialConfigInput projectDir userOptions) with
     | Throw e => build projectDir cacheDir userOptions enhancements = Throw e
     | Ok None =>
         build projectDir cacheDir userOptions enhancements
         = Throw (TypeError cannot_destructure)
     | Ok (Some partialTestConfig) =>
         match loadOptions (prepareOptions userOptions enhancements partialTestConfig) with
         | Throw e => build projectDir cacheDir userOptions enhancements = Throw e
         | Ok finalOptions =>
             ∃ transform,
               build projectDir cacheDir userOptions enhancements = Ok (Some transform)
         end
     end).
Proof.
  split; [apply build_guard|].
  intros Hrequested. unfold build.
  assert (Hguard : negb (truthy userOptions) && negb (truthy enhancements) = false).
  { destruct Hrequested as [-> | ->]; [reflexivity|apply andb_false_r]. }
  rewrite Hguard. unfold mbind, result_bind, mret, result_ret.
  destruct (loadPartialConfig _) as [[partialTestConfig|]|e]; [|reflexivity..].
  cbn [destructure].
  destruct (loadOptions _) as [finalOptions|e]; [by eexists|reflexivity].
Qed.

(** X3.  Whatever [validate] accepts, other than [false], makes [build] set
    up a pipeline: [build] passes through only for the configuration [false]
    without enhancements. *)
Theorem validated_configuration_builds (projectDir cacheDir : string)
        (conf r enhancements : value) :
  validate conf = Ok r ->
  (build projectDir cacheDir r enhancements = Ok None
   <-> conf = VBool false ∧ truthy enhancements = false).
Proof.
  intros Hv. rewrite build_guard.
  destruct (validate_accepts _ _ Hv) as [->|[->|[options ->]]].
  - cbn in Hv. injection Hv as <-. cbn. tauto.
  - cbn in Hv. injection Hv as <-. cbn. split; [intros [? _]|intros [? _]]; discriminate.
  - rewrite validate_conforming in Hv. injection Hv as <-. cbn.
    split; [intros [? _]|intros [? _]]; discriminate.
Qed.

End ValidateAndBuild.

Lemma validate_idempotent_witness :
  validate (H := Worked.host) Worked.plain = Ok Worked.plain.
Proof.
  apply (validate_idempotent (H := Worked.host)
           (VObj {[ "testOptions" := VObj {[ "presets" := VArr [] ]} ]})).
  - vm_compute. reflexivity.
  - vm_compute. reflexivity.
  - discriminate.
Defined.

Lemma build_null_iff_witness :
  build (H := Worked.host) Worked.projectDir Worked.cacheDir VNull (VBool false) = Ok None
  ∧ (∃ transform,
        build (H := Worked.host) Worked.projectDir Worked.cacheDir Worked.plain (VBool false)
        = Ok (Some transform))
  ∧ build (H := ignoring_host) Worked.projectDir Worked.cacheDir Worked.plain (VBool false)
    = Throw (TypeError "Cannot destructure property `options` of 'undefined' or 'null'.").
Proof.
  refine (conj _ (conj _ _)).
  - apply (proj1 (build_null_iff (H := Worked.host) Worked.projectDir Worked.cacheDir
                    VNull (VBool false))).
    split; reflexivity.
  - apply (proj2 (build_null_iff (H := Worked.host) Worked.projectDir Worked.cacheDir
                    Worked.plain (VBool false))).
    left. reflexivity.
  - apply (proj2 (build_null_iff (H := ignoring_host) Worked.projectDir Worked.cacheDir
                    Worked.plain (VBool false))).
    left. reflexivity.
Defined.

Lemma validated_configuration_builds_witness :
  build (H := Worked.host) Worked.projectDir Worked.cacheDir VNull (VBool false) = Ok None
  <-> VBool false = VBool false ∧ truthy (VBool false) = false.
Proof.
  apply (validated_configuration_builds (H := Worked.host) Worked.projectDir Worked.cacheDir
           (VBool false) VNull (VBool false)).
  reflexivity.
Defined.

(** ** More on the environment name *)

(** X4.  The environment name is never the empty string, whatever the
    environment holds. *)
Theorem envName_not_empty (env : environment) : envName env ≠ "".
Proof.
  rewrite envName_cases.
  destruct (env !! "BABEL_ENV") as [override|], (env !! "NODE_ENV") as [mode|];
    try destruct (String.eqb override "") eqn:Ho;
    try destruct (String.eqb mode "") eqn:Hm;
    try discriminate;
    try (by apply String.eqb_neq).
Qed.

(** X5.  The environment name depends on [BABEL_ENV] and [NODE_ENV] only:
    setting or removing any other variable does not change it. *)
Theorem envName_other_variables (env : environment) (name v : string) :
  name ≠ "BABEL_ENV" -> name ≠ "NODE_ENV" ->
  envName (<[name := v]> env) = envName env
  ∧ envName (delete name env) = envName env.
Proof.
  intros Hb Hn. rewrite !envName_cases.
  by rewrite !lookup_insert_ne, !lookup_delete_ne.
Qed.

Lemma envName_other_variables_witness :
  envName (<["CI" := "true"]> {[ "NODE_ENV" := "production" ]})
  = envName {[ "NODE_ENV" := "production" ]}
  ∧ envName (delete "CI" {[ "NODE_ENV" := "production" ]})
    = envName {[ "NODE_ENV" := "production" ]}.
Proof.
  apply (envName_other_variables {[ "NODE_ENV" := "production" ]} "CI" "true");
    discriminate.
Defined.

(** ** The input of [babel.loadPartialConfig] *)

Lemma own_props_falsy (v : value) : truthy v = false -> own_props v = ∅.
Proof.
  destruct v as [| |b|n| |s| | |]; try done; cbn.
  intros Hs. apply negb_false_iff, String.eqb_eq in Hs. by subst.
Qed.

Section PartialConfigInput.

Context `{Host}.

(** The input is the three settings of [build] over the user's own
    properties but [__proto__], over the base settings. *)
Lemma partialConfigInput_layers (projectDir : string) (userOptions : value) :
  partialConfigInput projectDir userOptions
  = {[ "envName" := VStr (envName process_env);
       "sourceMaps" := VBool true;
       "filename" := VStr "stub.js" ]}
    ∪ (delete "__proto__" (own_props (and_ userOptions (get userOptions "testOptions")))
       ∪ baseConfig projectDir).
Proof.
  unfold partialConfigInput, assign. cbn [fold_left]. fold (baseConfig projectDir).
  destruct (assign_from_plain (baseConfig projectDir)
              (and_ userOptions (get userOptions "testOptions"))) as [-> Hnone];
    [reflexivity|].
  destruct (assign_from_plain _
              (VObj {[ "envName" := VStr (envName process_env);
                       "sourceMaps" := VBool true;
                       "filename" := VStr "stub.js" ]}) Hnone) as [-> _].
  cbn [own_props]. by rewrite delete_id by by simplify_map_eq.
Qed.

(** X6.  In the options that [build] hands to [babel.loadPartialConfig],
    [envName], [sourceMaps] and [filename] are set by [build] whatever the
    user's [testOptions] say, and [__proto__] is never a property; every
    other property is the user's when the user gives it and otherwise the
    base setting of [build], in which [babelrc] and [configFile] are off;
    without user options only the base settings are left. *)
Theorem partialConfigInput_precedence (projectDir : string) (userOptions : value) :
  let input := partialConfigInput projectDir userOptions in
  input !! "envName" = Some (VStr (envName process_env))
  ∧ input !! "sourceMaps" = Some (VBool true)
  ∧ input !! "filename" = Some (VStr "stub.js")
  ∧ input !! "__proto__" = None
  ∧ (∀ (options : gmap string value) (k : string),
        truthy userOptions = true ->
        get userOptions "testOptions" = VObj options ->
        ¬ forced_key k -> k ≠ "__proto__" ->
        input !! k = match options !! k with
                     | Some v => Some v
                     | None => baseConfig projectDir !! k
                     end)
  ∧ (∀ k : string,
        truthy userOptions = false -> ¬ forced_key k ->
        input !! k = baseConfig projectDir !! k).
Proof.
  cbn zeta. rewrite partialConfigInput_layers.
  set (forced := ({[ "envName" := VStr (envName process_env);
                     "sourceMaps" := VBool true;
                     "filename" := VStr "stub.js" ]} : gmap string value)).
  assert (Hother : ∀ k, ¬ forced_key k -> forced !! k = None).
  { intros k Hk. unfold forced, forced_key in *.
    rewrite !lookup_insert_ne by (intros <-; tauto).
    apply lookup_singleton_ne. intros <-. tauto. }
  split; [apply lookup_union_Some_l; unfold forced; by simplify_map_eq|].
  split; [apply lookup_union_Some_l; unfold forced; by simplify_map_eq|].
  split; [apply lookup_union_Some_l; unfold forced; by simplify_map_eq|].
  split; [|split].
  - rewrite !lookup_union_None. split; [unfold forced; by simplify_map_eq|].
    split; [apply lookup_delete_eq|reflexivity].
  - intros options k Htruthy Hoptions Hk Hproto.
    rewrite lookup_union_r by auto.
    unfold and_. rewrite Htruthy, Hoptions. cbn [own_props].
    rewrite lookup_union, lookup_delete_ne by done.
    by destruct (options !! k), (baseConfig projectDir !! k).
  - intros k Hfalsy Hk. rewrite lookup_union_r by auto.
    unfold and_. rewrite Hfalsy, own_props_falsy by done.
    by rewrite delete_empty, (left_id_L ∅ (∪)).
Qed.

End PartialConfigInput.

Lemma partialConfigInput_precedence_witness :
  partialConfigInput (H := Worked.host) "/proj"
    (VObj {[ "testOptions" := VObj {[ "babelrc" := VBool true; "envName" := VStr "mine" ]} ]})
    !! "babelrc"
  = Some (VBool true)
  ∧ partialConfigInput (H := Worked.host) "/proj" VNull !! "babelrc"
    = baseConfig "/proj" !! "babelrc".
Proof.
  destruct (partialConfigInput_precedence (H := Worked.host) "/proj"
              (VObj {[ "testOptions" :=
                         VObj {[ "babelrc" := VBool true; "envName" := VStr "mine" ]} ]}))
    as (_ & _ & _ & _ & Huser & _).
  destruct (partialConfigInput_precedence (H := Worked.host) "/proj" VNull)
    as (_ & _ & _ & _ & _ & Hbase).
  split.
  - etransitivity.
    + apply (Huser {[ "babelrc" := VBool true; "envName" := VStr "mine" ]} "babelrc").
      * reflexivity.
      * vm_compute. reflexivity.
      * intros [Hk|[Hk|Hk]]; discriminate Hk.
      * discriminate.
    + vm_compute. reflexivity.
  - apply Hbase.
    + reflexivity.
    + intros [Hk|[Hk|Hk]]; discriminate Hk.
Defined.

(** ** The plugins and presets that [build] adds *)

Section PrepareOptions.

Context `{Host}.

Lemma unshift_plugin_spec (ref : string) (o : TestOptions) :
  presets (unshift_plugin ref o) = presets o
  ∧ settings (unshift_plugin ref o) = settings o
  ∧ plugins (unshift_plugin ref o)
    = (if existsb (makeValueChecker ref) (plugins o) then []
       else [createConfigItem ref plugin (VObj ∅)]) ++ plugins o.
Proof. unfold unshift_plugin. by destruct (existsb _ (plugins o)). Qed.

Lemma unshift_preset_spec (ref : string) (o : TestOptions) :
  plugins (unshift_preset ref o) = plugins o
  ∧ settings (unshift_preset ref o) = settings o
  ∧ presets (unshift_preset ref o)
    = (if existsb (makeValueChecker ref) (presets o) then []
       else [createConfigItem ref preset (VObj ∅)]) ++ presets o.
Proof. unfold unshift_preset. by destruct (existsb _ (presets o)). Qed.

Lemma push_preset_spec (ref : string) (options : value) (o : TestOptions) :
  plugins (push_preset ref options o) = plugins o
  ∧ settings (push_preset ref options o) = settings o
  ∧ presets (push_preset ref options o)
    = presets o ++ (if existsb (makeValueChecker ref) (presets o) then []
                    else [createConfigItem ref preset options]).
Proof.
  unfold push_preset. destruct (existsb _ (presets o)); cbn; by rewrite ?app_nil_r.
Qed.

(** X7.  [build] only adds to what Babel resolved from the user's
    configuration: the user's plugins stay, in their order, behind at most
    the two syntax plugins, object-rest-spread first; the user's presets
    stay, in their order, with the stage-4 preset in front of them only when
    user options were given and the preset of the enhancements behind them
    only when enhancements are requested; of the other options only
    [filename] is removed and [configFile] is switched off. *)
Theorem prepareOptions_adds_around (userOptions enhancements : value) (o : TestOptions) :
  let o' := prepareOptions userOptions enhancements o in
  (∃ added, plugins o' = added ++ plugins o
            ∧ (added = [] ∨ added = [asyncGenerators] ∨ added = [objectRestSpread]
               ∨ added = [objectRestSpread; asyncGenerators]))
  ∧ (∃ front back,
        presets o' = front ++ presets o ++ back
        ∧ (front = [] ∨ (truthy userOptions = true ∧ front = [stage4]))
        ∧ (back = [] ∨ (truthy enhancements = true ∧ back = [transformTestFiles])))
  ∧ settings o' !! "filename" = None
  ∧ settings o' !! "configFile" = Some (VBool false)
  ∧ (∀ k, k ≠ "filename" -> k ≠ "configFile" -> settings o' !! k = settings o !! k).
Proof.
  cbn zeta. unfold prepareOptions.
  set (o0 := {| plugins := plugins o; presets := presets o;
                settings := <["configFile" := VBool false]> (delete "filename" (settings o)) |}).
  set (o1 := unshift_plugin "@babel/plugin-syntax-async-generators" o0).
  set (o2 := unshift_plugin "@babel/plugin-syntax-object-rest-spread" o1).
  set (o3 := if truthy userOptions then unshift_preset "../stage-4" o2 else o2).
  set (o4 := if truthy enhancements
             then push_preset "@ava/babel-preset-transform-test-files"
                              (VObj {[ "powerAssert" := VBool true ]}) o3
             else o3).
  destruct (unshift_plugin_spec "@babel/plugin-syntax-async-generators" o0)
    as (Hpre1 & Hset1 & Hplug1).
  destruct (unshift_plugin_spec "@babel/plugin-syntax-object-rest-spread" o1)
    as (Hpre2 & Hset2 & Hplug2).
  fold o1 in Hpre1, Hset1, Hplug1. fold o2 in Hpre2, Hset2, Hplug2.
  assert (H3 : plugins o3 = plugins o2 ∧ settings o3 = settings o2
               ∧ ∃ front, presets o3 = front ++ presets o2
                          ∧ (front = [] ∨ (truthy userOptions = true ∧ front = [stage4]))).
  { unfold o3. destruct (truthy userOptions).
    - destruct (unshift_preset_spec "../stage-4" o2) as (-> & -> & ->).
      split; [done|]. split; [done|].
      destruct (existsb _ (presets o2)).
      + exists []. split; [done|]. by left.
      + exists [stage4]. split; [done|]. by right.
    - split; [done|]. split; [done|]. exists []. split; [done|]. by left. }
  destruct H3 as (Hplug3 & Hset3 & front & Hpre3 & Hfront).
  assert (H4 : plugins o4 = plugins o3 ∧ settings o4 = settings o3
               ∧ ∃ back, presets o4 = presets o3 ++ back
                         ∧ (back = [] ∨ (truthy enhancements = true
                                         ∧ back = [transformTestFiles]))).
  { unfold o4. destruct (truthy enhancements).
    - destruct (push_preset_spec "@ava/babel-preset-transform-test-files"
                                 (VObj {[ "powerAssert" := VBool true ]}) o3)
        as (-> & -> & ->).
      split; [done|]. split; [done|].
      destruct (existsb _ (presets o3)).
      + exists []. split; [done|]. by left.
      + exists [transformTestFiles]. split; [done|]. by right.
    - split; [done|]. split; [done|]. exists []. split; [by rewrite app_nil_r|]. by left. }
  destruct H4 as (Hplug4 & Hset4 & back & Hpre4 & Hback).
  split; [|split; [|split; [|split]]].
  - destruct (existsb _ (plugins o1)), (existsb _ (plugins o0));
      rewrite Hplug4, Hplug3, Hplug2, Hplug1; cbn [plugins o0 app].
    + exists []. split; [reflexivity|]. by left.
    + exists [asyncGenerators]. split; [reflexivity|]. right. by left.
    + exists [objectRestSpread]. split; [reflexivity|]. right. right. by left.
    + exists [objectRestSpread; asyncGenerators]. split; [reflexivity|].
      right. right. by right.
  - exists front, back. rewrite Hpre4, Hpre3, Hpre2, Hpre1. cbn [presets o0].
    by rewrite <- app_assoc.
  - rewrite Hset4, Hset3, Hset2, Hset1. cbn [settings o0].
    by rewrite lookup_insert_ne, lookup_delete_eq.
  - rewrite Hset4, Hset3, Hset2, Hset1. cbn [settings o0]. by rewrite lookup_insert_eq.
  - intros k Hk1 Hk2. rewrite Hset4, Hset3, Hset2, Hset1. cbn [settings o0].
    by rewrite lookup_insert_ne, lookup_delete_ne.
Qed.

End PrepareOptions.

Section PreparedOptions.

Context `{Host}.

(** X8.  What [build] adds, and when.  A module is missing from a list of
    items when no item holds the very value that [require] returns for the
    module.  The async-generators plugin is added in front of the plugins
    when it is missing from them, and then the object-rest-spread plugin in
    front of those when it is missing from them; the stage-4 preset is added
    in front of the presets when user options were given and it is missing
    from them, and then the preset of the enhancements behind those when
    enhancements are requested and it is missing from them.  Nothing else is
    added, and what was found is not added again. *)
Theorem prepareOptions_adds_what_is_missing (userOptions enhancements : value)
        (o : TestOptions) :
  let o' := prepareOptions userOptions enhancements o in
  let missing (ref : string) (items : list ConfigItem) : bool :=
    negb (existsb (makeValueChecker ref) items) in
  let generators :=
    if missing "@babel/plugin-syntax-async-generators" (plugins o)
    then [asyncGenerators] else [] in
  let spread :=
    if missing "@babel/plugin-syntax-object-rest-spread" (generators ++ plugins o)
    then [objectRestSpread] else [] in
  let applied_last :=
    if truthy userOptions && missing "../stage-4" (presets o)
    then [stage4] else [] in
  let applied_first :=
    if truthy enhancements
       && missing "@ava/babel-preset-transform-test-files" (applied_last ++ presets o)
    then [transformTestFiles] else [] in
  plugins o' = spread ++ generators ++ plugins o
  ∧ presets o' = applied_last ++ presets o ++ applied_first.
Proof.
  cbn zeta. unfold prepareOptions.
  set (o0 := {| plugins := plugins o; presets := presets o;
                settings := <["configFile" := VBool false]> (delete "filename" (settings o)) |}).
  set (o1 := unshift_plugin "@babel/plugin-syntax-async-generators" o0).
  set (o2 := unshift_plugin "@babel/plugin-syntax-object-rest-spread" o1).
  set (o3 := if truthy userOptions then unshift_preset "../stage-4" o2 else o2).
  destruct (unshift_plugin_spec "@babel/plugin-syntax-async-generators" o0)
    as (Hpre1 & _ & Hplug1).
  destruct (unshift_plugin_spec "@babel/plugin-syntax-object-rest-spread" o1)
    as (Hpre2 & _ & Hplug2).
  fold o1 in Hpre1, Hplug1. fold o2 in Hpre2, Hplug2.
  cbn [plugins presets o0] in Hpre1, Hplug1.
  assert (Hplug3 : plugins o3 = plugins o2).
  { unfold o3. destruct (truthy userOptions); [|done].
    apply (proj1 (unshift_preset_spec _ _)). }
  assert (Hpre3 : presets o3
                  = (if truthy userOptions
                        && negb (existsb (makeValueChecker "../stage-4") (presets o))
                     then [stage4] else []) ++ presets o).
  { unfold o3. destruct (truthy userOptions); cbn [andb].
    - rewrite (proj2 (proj2 (unshift_preset_spec _ _))), Hpre2, Hpre1.
      unfold stage4. by destruct (existsb _ (presets o)).
    - by rewrite Hpre2, Hpre1. }
  split.
  - transitivity (plugins o3).
    + destruct (truthy enhancements); [|done].
      apply (proj1 (push_preset_spec _ _ _)).
    + rewrite Hplug3, Hplug2, Hplug1. unfold asyncGenerators, objectRestSpread.
      clear. destruct (existsb _ (plugins o)); cbn [negb app];
        by destruct (existsb _ _).
  - destruct (truthy enhancements); cbn [andb].
    + rewrite (proj2 (proj2 (push_preset_spec _ _ _))), Hpre3.
      unfold stage4, transformTestFiles. clear.
      rewrite <- app_assoc.
      by destruct (existsb (makeValueChecker "@ava/babel-preset-transform-test-files") _).
    + by rewrite Hpre3, !app_nil_r.
Qed.

End PreparedOptions.

(** The worked example: Babel resolves neither plugin nor preset from the
    empty configuration, and all four items are added. *)
Example prepareOptions_fills_empty :
  let o' := prepareOptions (H := Worked.host) Worked.plain (VBool true) Worked_resolved in
  plugins o' = [objectRestSpread (H := Worked.host); asyncGenerators (H := Worked.host)]
  ∧ presets o' = [stage4 (H := Worked.host); transformTestFiles (H := Worked.host)].
Proof. vm_compute. done. Qed.

Lemma prepareOptions_adds_around_witness :
  settings (prepareOptions (H := Worked.host) Worked.plain (VBool true) Worked_resolved)
    !! "cwd"
  = settings Worked_resolved !! "cwd".
Proof.
  destruct (prepareOptions_adds_around (H := Worked.host) Worked.plain (VBool true)
              Worked_resolved) as (_ & _ & _ & _ & Hkeep).
  apply Hkeep; discriminate.
Defined.

(** ** More on the transform cache *)

Lemma decimal_not_map_dot (n : N) (s : string) : decimal n ≠ "map." +:+ s.
Proof. unfold decimal. by destruct (N.to_uint n). Qed.

Lemma atomic_write_tmp_gone (tmpfile filename data : string) (files : disk) :
  tmpfile ≠ filename ->
  replay (atomic_write tmpfile filename data) files !! tmpfile = None.
Proof.
  intros Hne. unfold atomic_write. cbn. rewrite lookup_insert_eq.
  by rewrite lookup_insert_ne, lookup_delete_eq.
Qed.

Lemma atomic_write_frame (tmpfile filename data path : string) (files : disk) :
  path ≠ tmpfile -> path ≠ filename ->
  replay (atomic_write tmpfile filename data) files !! path = files !! path.
Proof.
  intros Htmp Htarget.
  by rewrite <- (atomic_write_elsewhere tmpfile filename data path files 3).
Qed.

Section MoreProtocol.

Context `{Host}.

Variables cacheDir cacheKey : string.

Lemma tmp_names_differ (cachePath : string) (count1 count2 : N) :
  getTmpname (cachePath +:+ ".map") count1 ≠ getTmpname cachePath count2.
Proof.
  unfold getTmpname. rewrite append_assoc. intros Heq.
  apply append_inv_head in Heq. injection Heq as Heq.
  symmetry in Heq. by apply decimal_not_map_dot in Heq.
Qed.

(** X10.  A source file that cannot be read makes the call throw the error
    of the read at once: the cache is not consulted, the engine is not
    called and the disk is not changed. *)
Theorem unreadable_source (finalOptions : value) (filename : string) (w : world) :
  files w !! filename = None ->
  ensureTransformed cacheDir cacheKey finalOptions filename w
  = (Throw (enoent filename),
     World (files w) (trace w ++ [EReadFile filename]) (invocations w)).
Proof. intros Hmissing. by rewrite ensureTransformed_run, Hmissing. Qed.

(** X11.  A call that throws, for whatever reason, has written nothing:
    the disk and the counter of temporary names are as before, and the call
    added no step that changes the disk. *)
Theorem throwing_call_writes_nothing (finalOptions : value) (filename : string)
        (e : error) (w : world) :
  (ensureTransformed cacheDir cacheKey finalOptions filename w).1 = Throw e ->
  let after := (ensureTransformed cacheDir cacheKey finalOptions filename w).2 in
  files after = files w
  ∧ invocations after = invocations w
  ∧ ∃ events, trace after = trace w ++ events
              ∧ Forall (fun step => is_mutation step = false) events.
Proof.
  cbn zeta. rewrite ensureTransformed_run.
  destruct (files w !! filename) as [raw|].
  - cbn zeta. destruct (bool_decide _); [discriminate|].
    destruct (locatedSourceMap _ _ _) as [inputSourceMap|e1].
    + destruct (transformSync _ _) as [[code map]|e2]; [discriminate|].
      intros _. cbn [fst snd files trace invocations]. split; [done|]. split; [done|].
      eexists. rewrite <- app_assoc. split; [done|]. by repeat constructor.
    + intros _. cbn [fst snd files trace invocations]. split; [done|]. split; [done|].
      eexists. split; [done|]. by repeat constructor.
  - intros _. cbn [fst snd files trace invocations]. split; [done|]. split; [done|].
    eexists. split; [done|]. by repeat constructor.
Qed.

(** X12.  A call that publishes an entry leaves no temporary file behind
    and touches nothing else: after it neither of its two temporary names
    exists, and every path other than the entry, its map and those two names
    holds what it held before. *)
Theorem publication_touches_only_the_entry (finalOptions : value) (filename : string)
        (raw : list byte) (w : world) :
  files w !! filename = Some raw ->
  files w !! cachePathOf cacheDir cacheKey filename raw = None ->
  let cachePath := cachePathOf cacheDir cacheKey filename raw in
  let mapPath := cachePath +:+ ".map" in
  let mapTmp := getTmpname mapPath (invocations w + 1) in
  let codeTmp := getTmpname cachePath (invocations w + 2) in
  let outcome := ensureTransformed cacheDir cacheKey finalOptions filename w in
  outcome.1 = Ok cachePath ->
  files outcome.2 !! mapTmp = None
  ∧ files outcome.2 !! codeTmp = None
  ∧ invocations outcome.2 = (invocations w + 2)%N
  ∧ ∀ path, path ≠ cachePath -> path ≠ mapPath -> path ≠ mapTmp -> path ≠ codeTmp ->
            files outcome.2 !! path = files w !! path.
Proof.
  intros Hraw Hmiss. cbn zeta. rewrite ensureTransformed_run, Hraw. cbn zeta.
  rewrite bool_decide_eq_false_2 by (rewrite Hmiss; by intros [? ?]).
  destruct (locatedSourceMap _ _ _) as [inputSourceMap|e1]; [|discriminate].
  destruct (transformSync _ _) as [[code map]|e2]; [|discriminate].
  intros _. cbn [fst snd files invocations]. unfold publication.
  set (cachePath := cachePathOf cacheDir cacheKey filename raw).
  rewrite replay_app.
  pose proof (tmp_is_not_target (cachePath +:+ ".map") (invocations w + 1)) as Hmm.
  pose proof (tmp_is_not_target cachePath (invocations w + 2)) as Hcc.
  pose proof (map_tmp_is_not_code cachePath (invocations w + 1)) as Hmc.
  pose proof (tmp_names_differ cachePath (invocations w + 1) (invocations w + 2)) as Hmt.
  split; [|split; [|split]].
  - rewrite atomic_write_frame by done. by apply atomic_write_tmp_gone.
  - by apply atomic_write_tmp_gone.
  - done.
  - intros path Hc Hm Hmtmp Hctmp. by rewrite !atomic_write_frame.
Qed.

(** X13.  On a miss for which a source map lookup does not throw, the
    engine is called exactly once.  Its input is the text that Node decodes
    from what [stripBomBuf] returns of the bytes of the file: the byte order
    mark is gone only when [is-utf8] accepts the bytes.  Its options hold
    the file as [filename] and the located map as [inputSourceMap], whatever
    the final options say about these two, and never [__proto__] as a
    property; every other option is the final one. *)
Theorem engine_call (finalOptions : value) (filename : string) (raw : list byte)
        (inputSourceMap : value) (w : world) :
  files w !! filename = Some raw ->
  files w !! cachePathOf cacheDir cacheKey filename raw = None ->
  locatedSourceMap (files w) filename (toString (stripBomBuf raw)) = Ok inputSourceMap ->
  let after := (ensureTransformed cacheDir cacheKey finalOptions filename w).2 in
  ∃ (options : gmap string value) (events : list event),
    trace after = trace w ++ events
    ∧ filter (fun step => is_transform step = true) events
      = [ETransform (toString (stripBomBuf raw)) options]
    ∧ options !! "filename" = Some (VStr filename)
    ∧ options !! "inputSourceMap" = Some inputSourceMap
    ∧ options !! "__proto__" = None
    ∧ ∀ k, k ≠ "filename" -> k ≠ "inputSourceMap" -> k ≠ "__proto__" ->
           options !! k = own_props finalOptions !! k.
Proof.
  intros Hraw Hmiss Hmap. cbn zeta. rewrite ensureTransformed_run, Hraw. cbn zeta.
  rewrite bool_decide_eq_false_2 by (rewrite Hmiss; by intros [? ?]).
  rewrite Hmap.
  exists (engineOptions finalOptions inputSourceMap filename).
  assert (Hoptions :
            engineOptions finalOptions inputSourceMap filename !! "filename"
            = Some (VStr filename)
            ∧ engineOptions finalOptions inputSourceMap filename !! "inputSourceMap"
              = Some inputSourceMap
            ∧ engineOptions finalOptions inputSourceMap filename !! "__proto__" = None
            ∧ ∀ k, k ≠ "filename" -> k ≠ "inputSourceMap" -> k ≠ "__proto__" ->
                   engineOptions finalOptions inputSourceMap filename !! k
                   = own_props finalOptions !! k).
  { unfold engineOptions, assign. cbn [fold_left].
    destruct (assign_from_plain ∅ finalOptions) as [-> Hnone]; [done|].
    destruct (assign_from_plain _
                (VObj {[ "inputSourceMap" := inputSourceMap;
                         "filename" := VStr filename ]}) Hnone) as [-> Hproto].
    cbn [own_props]. rewrite (right_id_L ∅ (∪)).
    rewrite (delete_id (M := gmap string) _ "__proto__") by by simplify_map_eq.
    split; [|split; [|split]].
    - apply lookup_union_Some_l. by simplify_map_eq.
    - apply lookup_union_Some_l. by simplify_map_eq.
    - apply lookup_union_None. split; [by simplify_map_eq|apply lookup_delete_eq].
    - intros k Hk1 Hk2 Hk3. rewrite lookup_union_r.
      + by rewrite lookup_delete_ne.
      + rewrite lookup_insert_ne by done. by apply lookup_singleton_ne. }
  destruct (transformSync _ _) as [[code map]|e].
  - eexists. cbn [snd trace]. rewrite <- !app_assoc. split; [done|]. by split.
  - eexists. cbn [snd trace]. rewrite <- !app_assoc. split; [done|]. by split.
Qed.

(** X14.  [getSourceMap] changes nothing, and a source map in the code
    goes before a map file: with an inline map the result is that map,
    without one it is the map that the map file holds or [undefined] when
    there is none; what either lookup throws is thrown on. *)
Theorem getSourceMap_precedence (filePath code : string) (w : world) :
  (getSourceMap filePath code w).2 = w
  ∧ (∀ m, fromSource code = Ok (Some m) -> (getSourceMap filePath code w).1 = Ok m)
  ∧ (∀ e, fromSource code = Throw e -> (getSourceMap filePath code w).1 = Throw e)
  ∧ (fromSource code = Ok None ->
     (getSourceMap filePath code w).1
     = match fromMapFileSource code (dirname filePath) (files w) with
       | Ok found => Ok (default VUndefined found)
       | Throw e => Throw e
       end).
Proof.
  rewrite getSourceMap_run. unfold locatedSourceMap. cbn [fst snd].
  split; [done|]. split; [by intros m ->|]. split; [by intros e ->|]. by intros ->.
Qed.

End MoreProtocol.

(** X15.  Two names for the same bytes share a cache entry exactly when
    they have the same extension. *)
Theorem shared_entry_iff_extension (cacheDir cacheKey file1 file2 : string)
        (raw : list byte) :
  cachePathOf cacheDir cacheKey file1 raw = cachePathOf cacheDir cacheKey file2 raw
  <-> Path.extname file1 = Path.extname file2.
Proof.
  unfold cachePathOf, contentDigest. split.
  - intros Hpath. by apply cache_path_inj in Hpath as [_ ?].
  - by intros ->.
Qed.

Lemma unreadable_source_witness :
  ensureTransformed (H := Worked.host) Worked.cacheDir Worked.cacheKey (VObj ∅)
                    "test/missing.js" Worked.fresh
  = (Throw (enoent "test/missing.js"),
     World (files Worked.fresh) (trace Worked.fresh ++ [EReadFile "test/missing.js"])
           (invocations Worked.fresh)).
Proof.
  apply (unreadable_source (H := Worked.host)). vm_compute. reflexivity.
Defined.

Lemma throwing_call_writes_nothing_witness :
  files (ensureTransformed (H := Worked.host) Worked.cacheDir Worked.cacheKey (VObj ∅)
                           "test/broken.js" Worked.fresh).2
  = files Worked.fresh
  ∧ invocations (ensureTransformed (H := Worked.host) Worked.cacheDir Worked.cacheKey
                                   (VObj ∅) "test/broken.js" Worked.fresh).2
    = invocations Worked.fresh
  ∧ ∃ events,
      trace (ensureTransformed (H := Worked.host) Worked.cacheDir Worked.cacheKey (VObj ∅)
                               "test/broken.js" Worked.fresh).2
      = trace Worked.fresh ++ events
      ∧ Forall (fun step => is_mutation step = false) events.
Proof.
  apply (throwing_call_writes_nothing (H := Worked.host) Worked.cacheDir Worked.cacheKey
           (VObj ∅) "test/broken.js" (Error "unknown: Unexpected token (1:0)")
           Worked.fresh).
  vm_compute. reflexivity.
Defined.

Lemma publication_touches_only_the_entry_witness :
  files (ensureTransformed (H := Worked.host) Worked.cacheDir Worked.cacheKey (VObj ∅)
                           "test/a.js" Worked.fresh).2
    !! getTmpname (H := Worked.host) (Worked.entry +:+ ".map") (invocations Worked.fresh + 1)
  = None
  ∧ files (ensureTransformed (H := Worked.host) Worked.cacheDir Worked.cacheKey (VObj ∅)
                             "test/a.js" Worked.fresh).2
      !! getTmpname (H := Worked.host) Worked.entry (invocations Worked.fresh + 2)
    = None
  ∧ invocations (ensureTransformed (H := Worked.host) Worked.cacheDir Worked.cacheKey
                                   (VObj ∅) "test/a.js" Worked.fresh).2
    = (invocations Worked.fresh + 2)%N
  ∧ ∀ path,
      path ≠ Worked.entry -> path ≠ Worked.entry +:+ ".map" ->
      path ≠ getTmpname (H := Worked.host) (Worked.entry +:+ ".map")
                        (invocations Worked.fresh + 1) ->
      path ≠ getTmpname (H := Worked.host) Worked.entry (invocations Worked.fresh + 2) ->
      files (ensureTransformed (H := Worked.host) Worked.cacheDir Worked.cacheKey (VObj ∅)
                               "test/a.js" Worked.fresh).2 !! path
      = files Worked.fresh !! path.
Proof.
  apply (publication_touches_only_the_entry (H := Worked.host) Worked.cacheDir
           Worked.cacheKey (VObj ∅) "test/a.js" (utf8 "const x = 1;") Worked.fresh).
  - vm_compute. reflexivity.
  - vm_compute. reflexivity.
  - vm_compute. reflexivity.
Defined.

Lemma engine_call_witness :
  ∃ (options : gmap string value) (events : list event),
    trace (ensureTransformed (H := Worked.host) Worked.cacheDir Worked.cacheKey
             (VObj {[ "filename" := VStr "stub.js" ]}) "test/ff.js" Worked.marked).2
    = trace Worked.marked ++ events
    ∧ filter (fun step => is_transform step = true) events
      = [ETransform (@toString Worked.host (stripBomBuf (bom ++ utf8 "var a;" ++ [x0c])))
                    options]
    ∧ options !! "filename" = Some (VStr "test/ff.js")
    ∧ options !! "inputSourceMap" = Some VUndefined
    ∧ options !! "__proto__" = None
    ∧ ∀ k, k ≠ "filename" -> k ≠ "inputSourceMap" -> k ≠ "__proto__" ->
           options !! k = own_props (VObj {[ "filename" := VStr "stub.js" ]}) !! k.
Proof.
  apply (engine_call (H := Worked.host) Worked.cacheDir Worked.cacheKey
           (VObj {[ "filename" := VStr "stub.js" ]}) "test/ff.js"
           (bom ++ utf8 "var a;" ++ [x0c]) VUndefined Worked.marked).
  - vm_compute. reflexivity.
  - vm_compute. reflexivity.
  - vm_compute. reflexivity.
Defined.

(** The engine is given the byte order mark of that file. *)
Example engine_call_keeps_mark :
  @toString Worked.host (stripBomBuf (bom ++ utf8 "var a;" ++ [x0c]))
  = string_of_list_byte (bom ++ utf8 "var a;" ++ [x0c]).
Proof. vm_compute. reflexivity. Qed.

Lemma getSourceMap_precedence_witness :
  (getSourceMap (H := annotated_host) "test/a.js" "inline" Worked.fresh).1
  = Ok (VObj {[ "version" := VNum 3 ]})
  ∧ (getSourceMap (H := annotated_host) "test/a.js" "bad" Worked.fresh).1
    = Throw (Error "Unexpected token in JSON")
  ∧ (getSourceMap (H := annotated_host) "test/a.js" "const x = 1;" Worked.fresh).1
    = match fromMapFileSource (Host := annotated_host) "const x = 1;"
              (dirname (Host := annotated_host) "test/a.js") (files Worked.fresh) with
      | Ok found => Ok (default VUndefined found)
      | Throw e => Throw e
      end.
Proof.
  refine (conj _ (conj _ _)).
  - apply (proj1 (proj2 (getSourceMap_precedence (H := annotated_host)
                           "test/a.js" "inline" Worked.fresh))).
    reflexivity.
  - apply (proj1 (proj2 (proj2 (getSourceMap_precedence (H := annotated_host)
                                  "test/a.js" "bad" Worked.fresh)))).
    reflexivity.
  - apply (proj2 (proj2 (proj2 (getSourceMap_precedence (H := annotated_host)
                                  "test/a.js" "const x = 1;" Worked.fresh)))).
    reflexivity.
Defined.

(** ** The shape of a cache path *)

Lemma take_while_app_stop {A : Type} (p : A -> bool) (l1 l2 : list A) :
  Forall (fun x => p x = true) l1 -> stops p l2 ->
  Path.take_while p (l1 ++ l2) = l1.
Proof.
  intros Hall Hstop. induction Hall as [|x l1 Hx Hl1 IH]; cbn.
  - destruct l2 as [|y l2]; [done|]. cbn in *. by rewrite Hstop.
  - by rewrite Hx, IH.
Qed.

Lemma drop_while_app_stop {A : Type} (p : A -> bool) (l1 l2 : list A) :
  Forall (fun x => p x = true) l1 -> stops p l2 ->
  Path.drop_while p (l1 ++ l2) = l2.
Proof.
  intros Hall Hstop. induction Hall as [|x l1 Hx Hl1 IH]; cbn.
  - destruct l2 as [|y l2]; [done|]. cbn in *. by rewrite Hstop.
  - by rewrite Hx, IH.
Qed.

(** An extension is empty, or a dot and then no further dot. *)
Lemma extname_shape (path : list ascii) :
  Path.extname_chars path = []
  ∨ ∃ tail, Path.extname_chars path = Path.dot :: tail
            ∧ Forall (fun c => Path.is_dot c = false) tail.
Proof.
  unfold Path.extname_chars.
  set (component := Path.last_component_rev path).
  destruct (Path.drop_while _ component) as [|d [|b before]]; [by left..|].
  match goal with |- context [if ?b then _ else _] => destruct b end; [by left|].
  right. eexists. split; [done|]. apply Forall_rev.
  eapply Forall_impl; [apply take_while_holds|].
  intros c Hc. by apply negb_true_iff in Hc.
Qed.

Lemma hex_digit_no_dot (c : ascii) : In c MD5.digits -> Path.is_dot c = false.
Proof.
  cbn. intros Hin.
  repeat (destruct Hin as [<-|Hin]; [reflexivity|]). destruct Hin.
Qed.

(** What [path.join] puts in front of a file name is empty or ends in a
    separator. *)
Lemma join_prefix_end (dir : list ascii) :
  stops (fun c => negb (Path.is_slash c)) (rev (join_prefix dir)).
Proof.
  unfold join_prefix. destruct dir as [|d dir]; [done|].
  set (absolute := Path.starts_with_slash (d :: dir)).
  destruct (rev (fold_left _ _ _)) as [|p parts].
  - rewrite app_nil_r. by destruct absolute.
  - rewrite rev_app_distr, rev_app_distr. done.
Qed.

(** The extension of a directory prefix, thirty-two hexadecimal digits and
    an extension is that extension. *)
Lemma extname_of_cache_name (dir hash path : list ascii) :
  length hash = 32%nat -> Forall (fun c => In c MD5.digits) hash ->
  Path.extname_chars (join_prefix dir ++ hash ++ Path.extname_chars path)
  = Path.extname_chars path.
Proof.
  intros Hlen Hhex.
  set (ext := Path.extname_chars path).
  assert (Hname : Forall (fun c => negb (Path.is_slash c) = true) (rev (hash ++ ext))).
  { apply Forall_rev, Forall_app. split.
    - eapply Forall_impl; [exact Hhex|]. intros c Hc.
      by rewrite (hex_digit_no_slash c Hc).
    - eapply Forall_impl; [apply extname_no_slash|]. by intros c ->. }
  assert (Hcomponent : Path.last_component_rev (join_prefix dir ++ hash ++ ext)
                       = rev (hash ++ ext)).
  { unfold Path.last_component_rev. rewrite rev_app_distr.
    assert (Hstart : Path.drop_while Path.is_slash (rev (hash ++ ext) ++ rev (join_prefix dir))
                     = rev (hash ++ ext) ++ rev (join_prefix dir)).
    { destruct (rev (hash ++ ext)) as [|c l] eqn:Hrev.
      - apply (f_equal (@length ascii)) in Hrev.
        rewrite length_rev, length_app, Hlen in Hrev. discriminate Hrev.
      - inversion Hname as [|? ? Hc _]; subst. cbn.
        apply negb_true_iff in Hc. by rewrite Hc. }
    rewrite Hstart. apply take_while_app_stop; [done|apply join_prefix_end]. }
  assert (Hhash : Forall (fun c => negb (Path.is_dot c) = true) (rev hash)).
  { apply Forall_rev. eapply Forall_impl; [exact Hhex|]. intros c Hc.
    by rewrite (hex_digit_no_dot c Hc). }
  unfold Path.extname_chars at 1. rewrite Hcomponent, rev_app_distr.
  destruct (extname_shape path) as [Hext|(tail & Hext & Htail)]; fold ext in Hext;
    rewrite Hext.
  - cbn [rev app]. rewrite <- (app_nil_r (rev hash)).
    by rewrite drop_while_app_stop.
  - cbn [rev]. rewrite <- app_assoc. cbn [app].
    assert (Htail' : Forall (fun c => negb (Path.is_dot c) = true) (rev tail)).
    { apply Forall_rev. eapply Forall_impl; [exact Htail|]. by intros c ->. }
    rewrite drop_while_app_stop, take_while_app_stop by done.
    destruct (rev hash) as [|h1 [|h2 more]] eqn:Hrev.
    + apply (f_equal (@length ascii)) in Hrev. rewrite length_rev, Hlen in Hrev.
      discriminate Hrev.
    + apply (f_equal (@length ascii)) in Hrev. rewrite length_rev, Hlen in Hrev.
      discriminate Hrev.
    + rewrite rev_involutive. by destruct (rev tail).
Qed.

(** X16.  The entries of a cache directory are siblings: there is one
    prefix, fixed by the directory, such that every cache path is the prefix,
    the content digest and the extension of the source file; and the
    extension of a cache path is the extension of the source file. *)
Theorem cache_path_shape (cacheDir : string) :
  ∃ prefix : string,
    ∀ (cacheKey filename : string) (raw : list byte),
      cachePathOf cacheDir cacheKey filename raw
      = prefix +:+ contentDigest cacheKey (stripBomBuf raw) +:+ Path.extname filename
      ∧ Path.extname (cachePathOf cacheDir cacheKey filename raw) = Path.extname filename.
Proof.
  exists (string_of_list_ascii (join_prefix (list_ascii_of_string cacheDir))).
  intros cacheKey filename raw. unfold cachePathOf, contentDigest.
  set (hash := md5Hex [utf8 cacheKey; stripBomBuf raw]).
  destruct (md5Hex_chars [utf8 cacheKey; stripBomBuf raw]) as [Hlen Hhex].
  fold hash in Hlen, Hhex.
  assert (Hjoin : list_ascii_of_string (Path.join cacheDir (hash +:+ Path.extname filename))
                  = join_prefix (list_ascii_of_string cacheDir)
                      ++ list_ascii_of_string hash
                      ++ Path.extname_chars (list_ascii_of_string filename)).
  { unfold Path.join. rewrite list_ascii_of_string_of_list_ascii.
    rewrite join_proper by apply cache_name_proper.
    by rewrite chars_app, extname_chars_of. }
  split.
  - apply chars_inj. rewrite Hjoin, !chars_app, list_ascii_of_string_of_list_ascii.
    by rewrite extname_chars_of.
  - unfold Path.extname at 1. rewrite Hjoin.
    by rewrite extname_of_cache_name.
Qed.

(** ** What a returned path promises, and recovery from a crash *)

Section Recovery.

Context `{Host}.

Variables cacheDir cacheKey : string.

(** X17.  Whenever a call returns a path, the source file was read, the
    path is the cache path of the bytes it held, and a file exists at that
    path when the call returns. *)
Theorem returned_path_exists (finalOptions : value) (filename path : string)
        (w w' : world) :
  ensureTransformed cacheDir cacheKey finalOptions filename w = (Ok path, w') ->
  ∃ raw, files w !! filename = Some raw
         ∧ path = cachePathOf cacheDir cacheKey filename raw
         ∧ is_Some (files w' !! path).
Proof. apply ensureTransformed_returns. Qed.

Lemma publication_incomplete (files : disk) (cachePath : string) (count : N)
      (code : string) (map : value) (n : nat) :
  files !! cachePath = None -> (n < 6)%nat ->
  replay (take n (publication cachePath count code map)) files !! cachePath = None.
Proof.
  intros Habsent Hn. unfold publication.
  pose proof (map_tmp_is_not_code cachePath (count + 1)) as Hmc.
  pose proof (tmp_is_not_target cachePath (count + 2)) as Hcc.
  pose proof (map_is_not_code cachePath) as Hpaths.
  rewrite take_app, replay_app. cbn [length atomic_write].
  fold (atomic_write (getTmpname (cachePath +:+ ".map") (count + 1))
                     (cachePath +:+ ".map") (mapFileText map)).
  rewrite atomic_write_target by done.
  rewrite (atomic_write_elsewhere _ _ _ cachePath) by done.
  by replace (n - 3 <? 3)%nat with true by (symmetry; apply Nat.ltb_lt; lia).
Qed.

(** X18.  A publication that was interrupted before its last step is done
    again by the next call: on the disk that any proper prefix of the steps
    of a publication leaves, the cache path is still absent, so a call for
    the file calls the engine again and, when that succeeds, returns the
    cache path with the new code at it and the new map next to it. *)
Theorem interrupted_publication_is_repeated (finalOptions : value) (filename : string)
        (raw : list byte) (before : disk) (count0 : N) (code0 : string) (map0 : value)
        (n : nat) (inputSourceMap : value) (code : string) (map : value) (w : world) :
  let cachePath := cachePathOf cacheDir cacheKey filename raw in
  let inputCode := toString (stripBomBuf raw) in
  before !! cachePath = None ->
  (n < 6)%nat ->
  files w = replay (take n (publication cachePath count0 code0 map0)) before ->
  files w !! filename = Some raw ->
  locatedSourceMap (files w) filename inputCode = Ok inputSourceMap ->
  transformSync inputCode (engineOptions finalOptions inputSourceMap filename)
  = Ok (code, map) ->
  let outcome := ensureTransformed cacheDir cacheKey finalOptions filename w in
  outcome.1 = Ok cachePath
  ∧ count_events is_transform (trace outcome.2) = S (count_events is_transform (trace w))
  ∧ files outcome.2 !! cachePath = Some (utf8 (codeFileText cachePath code))
  ∧ files outcome.2 !! (cachePath +:+ ".map") = Some (utf8 (mapFileText map)).
Proof.
  cbn zeta. intros Hbefore Hn Hdisk Hraw Hmap Hengine.
  assert (Hmiss : files w !! cachePathOf cacheDir cacheKey filename raw = None).
  { rewrite Hdisk. by apply publication_incomplete. }
  rewrite ensureTransformed_run, Hraw. cbn zeta.
  rewrite bool_decide_eq_false_2 by (rewrite Hmiss; by intros [? ?]).
  rewrite Hmap, Hengine. cbn [fst snd files trace].
  destruct (publication_result (files w) (cachePathOf cacheDir cacheKey filename raw)
              (invocations w) code map Hmiss) as [Hcode Hmapfile].
  split; [done|]. split; [|by split].
  rewrite !count_events_app.
  assert (Hsteps : count_events is_transform
                     (publication (cachePathOf cacheDir cacheKey filename raw)
                                  (invocations w) code map) = 0%nat) by reflexivity.
  rewrite Hsteps.
  assert (Hchecks : count_events is_transform
                      [EReadFile filename;
                       EExists (cachePathOf cacheDir cacheKey filename raw)] = 0%nat)
    by reflexivity.
  assert (Hcall : ∀ c o, count_events is_transform [ETransform c o] = 1%nat)
    by reflexivity.
  rewrite Hchecks, Hcall. lia.
Qed.

End Recovery.

Lemma returned_path_exists_witness :
  ∃ raw, files Worked.fresh !! "test/a.js" = Some raw
         ∧ Worked.entry = cachePathOf Worked.cacheDir Worked.cacheKey "test/a.js" raw
         ∧ is_Some (files (ensureTransformed (H := Worked.host) Worked.cacheDir
                             Worked.cacheKey (VObj ∅) "test/a.js" Worked.fresh).2
                      !! Worked.entry).
Proof.
  apply (returned_path_exists (H := Worked.host) Worked.cacheDir Worked.cacheKey (VObj ∅)
           "test/a.js" Worked.entry Worked.fresh).
  vm_compute. reflexivity.
Defined.

Lemma interrupted_publication_is_repeated_witness :
  (ensureTransformed (H := Worked.host) Worked.cacheDir Worked.cacheKey (VObj ∅)
                     "test/a.js" interrupted).1
  = Ok Worked.entry
  ∧ count_events is_transform
      (trace (ensureTransformed (H := Worked.host) Worked.cacheDir Worked.cacheKey (VObj ∅)
                                "test/a.js" interrupted).2)
    = S (count_events is_transform (trace interrupted))
  ∧ files (ensureTransformed (H := Worked.host) Worked.cacheDir Worked.cacheKey (VObj ∅)
                             "test/a.js" interrupted).2 !! Worked.entry
    = Some (utf8 (codeFileText Worked.entry "const x = 1;"))
  ∧ files (ensureTransformed (H := Worked.host) Worked.cacheDir Worked.cacheKey (VObj ∅)
                             "test/a.js" interrupted).2 !! (Worked.entry +:+ ".map")
    = Some (utf8 (mapFileText (H := Worked.host) (VObj ∅))).
Proof.
  apply (interrupted_publication_is_repeated (H := Worked.host) Worked.cacheDir
           Worked.cacheKey (VObj ∅) "test/a.js" (utf8 "const x = 1;")
           (files Worked.fresh) 0 "const x = 1;" (VObj ∅) 4 VUndefined
           "const x = 1;" (VObj ∅) interrupted).
  - vm_compute. reflexivity.
  - lia.
  - reflexivity.
  - vm_compute. reflexivity.
  - vm_compute. reflexivity.
  - vm_compute. reflexivity.
Defined.
